(** * SphinxAI: the filtering and cross-referencing engine of [main.py]

    A shallow embedding of [FilterManager], [ExerciseManager] and of the
    scenario cross-reference of [main], with the properties of the
    specification stated on it; then of the cleaning of
    [DataManager.load_data], of the sidebar and of the first half of
    [main], with properties read off the code.

    Conventions of the embedding.
    - A cell is missing (pandas' NaN), an integer or a text.  A text is a
      [string]: a sequence of code points below 256, where the decimal
      digits of the regular expression class [\d] are exactly '0'..'9'.
    - A DataFrame is a list of column names and a list of rows, each row a
      list of cells read by position.  The index of a frame is unique
      throughout [main.py], so a boolean mask is a list of booleans read
      by position as well.
    - DataFrames are Python objects: the program holds references to them.
      Code that may write into an object runs in a state monad over a store
      of frames, so that aliasing and in-place updates are visible.
    - Python exceptions are the [Raise] results of that monad. *)

From Stdlib Require Import ZArith List String Ascii Bool Lia DecimalString DecimalPos.
From Stdlib Require Import Sorted Permutation.
Import ListNotations.

Local Open Scope string_scope.
Local Open Scope list_scope.
Local Open Scope Z_scope.

(** ** Results and exceptions *)

Inductive exn : Type :=
| KeyError (key : string)   (* a column label that the frame does not have *)
| ValueError                (* int() on a text that it does not convert *)
| ReError                   (* re.error: the pattern does not compile *)
| NotModelled.              (* regular expression syntax beyond the fragment below *)

Inductive result (A : Type) : Type :=
| Ok (a : A)
| Raise (e : exn).

Arguments Ok {A} a.
Arguments Raise {A} e.

Definition rbind {A B} (r : result A) (k : A -> result B) : result B :=
  match r with
  | Ok a => k a
  | Raise e => Raise e
  end.

Notation "'let?' x ':=' r 'in' k" := (rbind r (fun x => k))
  (at level 10, x name, r at level 100, k at level 200).

(** ** Cells *)

Inductive cell : Type :=
| NaN
| IntV (z : Z)
| StrV (s : string).

(** [pd.isna] on a scalar. *)
Definition isna (c : cell) : bool :=
  match c with
  | NaN => true
  | _ => false
  end.

(** [str(x)]: the text of a cell; [str(float('nan'))] is ["nan"]. *)
Definition py_str (c : cell) : string :=
  match c with
  | NaN => "nan"
  | IntV z => NilZero.string_of_int (Z.to_int z)
  | StrV s => s
  end.

(** Equality of two cells as [isin] decides it: by type and value, and a
    missing cell equals a missing value. *)
Definition cell_eqb (a b : cell) : bool :=
  match a, b with
  | NaN, NaN => true
  | IntV x, IntV y => x =? y
  | StrV s, StrV t => String.eqb s t
  | _, _ => false
  end.

(** ** Texts: digits, [int], [re.findall(r'\d+', _)] *)

Definition is_digit (c : ascii) : bool :=
  (Ascii.leb "0" c && Ascii.leb c "9")%char.

Definition digit_val (c : ascii) : Z :=
  Z.of_N (N_of_ascii c) - 48.

Fixpoint int_of_digits (acc : Z) (s : string) : result Z :=
  match s with
  | EmptyString => Ok acc
  | String c s' =>
      if is_digit c then int_of_digits (10 * acc + digit_val c) s'
      else Raise ValueError
  end.

(** [sys.get_int_max_str_digits()] as the interpreter starts: CPython 3.11
    and later refuse to convert a decimal literal of more digits, leading
    zeros counted. *)
Definition max_str_digits : Z := 4300.

(** [int(s)] on a text.  Python integers are unbounded, hence [Z].  The
    model accepts the non-empty runs of at most [max_str_digits] decimal
    digits and raises [ValueError] on every other text: on a longer run,
    as the interpreter does, and on a text that is no run of digits
    ([main.py] passes none to [int]; Python accepts a few more literals:
    a sign, blanks around, digit separators). *)
Definition py_int (s : string) : result Z :=
  match s with
  | EmptyString => Raise ValueError
  | _ =>
      if Z.of_nat (String.length s) <=? max_str_digits then int_of_digits 0 s
      else Raise ValueError
  end.

Definition flush (run : string) : list string :=
  match run with
  | EmptyString => []
  | _ => [run]
  end.

(** The scan behind [re.findall(r'\d+', s)]: [run] is the digit run being
    read; a run ends at the first non-digit or at the end of the text, so
    the runs are maximal and come in left-to-right order. *)
Fixpoint findall_from (run : string) (s : string) : list string :=
  match s with
  | EmptyString => flush run
  | String c s' =>
      if is_digit c then findall_from (run ++ String c EmptyString)%string s'
      else flush run ++ findall_from EmptyString s'
  end.

Definition findall_digits (s : string) : list string :=
  findall_from EmptyString s.

(** ** [FilterManager.is_in_percentage_range] *)

Definition is_in_percentage_range (value : Z) (range_str : cell) : result bool :=
  if isna range_str then Ok false
  else
    let numbers := findall_digits (py_str range_str) in
    match numbers with
    | [n] =>
        let? n' := py_int n in
        Ok (value =? n')
    | [a; b] =>
        (* a chained comparison: the right operand is evaluated only when
           the left comparison holds *)
        let? lo := py_int a in
        if lo <=? value then
          let? hi := py_int b in
          Ok (value <=? hi)
        else Ok false
    | _ => Ok false
    end.

(** ** DataFrames *)

Record DataFrame : Type := {
  columns : list string;
  rows : list (list cell)
}.

Fixpoint index_of (col : string) (cols : list string) : option nat :=
  match cols with
  | [] => None
  | c :: cs =>
      if String.eqb col c then Some O
      else option_map S (index_of col cs)
  end.

(** The cell of a row at a position; a row that is too short reads as
    missing there. *)
Definition cell_at (i : nat) (row : list cell) : cell := nth i row NaN.

(** [row[col]] on a row of a frame whose columns are [cols]. *)
Definition row_get (cols : list string) (row : list cell) (col : string)
  : result cell :=
  match index_of col cols with
  | Some i => Ok (cell_at i row)
  | None => Raise (KeyError col)
  end.

(** [df[col]]: the column as a Series. *)
Definition get_column (df : DataFrame) (col : string) : result (list cell) :=
  match index_of col (columns df) with
  | Some i => Ok (map (cell_at i) (rows df))
  | None => Raise (KeyError col)
  end.

Fixpoint select {A : Type} (mask : list bool) (xs : list A) : list A :=
  match mask, xs with
  | b :: mask', x :: xs' =>
      if b then x :: select mask' xs' else select mask' xs'
  | _, _ => []
  end.

(** [df[mask]]: boolean indexing, a new frame with the rows whose mask
    entry is true. *)
Definition boolean_index (df : DataFrame) (mask : list bool) : DataFrame :=
  {| columns := columns df; rows := select mask (rows df) |}.

Fixpoint replace_nth (i : nat) (v : cell) (row : list cell) : list cell :=
  match i, row with
  | O, [] => [v]
  | O, _ :: t => v :: t
  | S i', [] => NaN :: replace_nth i' v []
  | S i', x :: t => x :: replace_nth i' v t
  end.

Fixpoint assign_cells (i : nat) (values : list cell) (rws : list (list cell))
  : list (list cell) :=
  match values, rws with
  | v :: values', row :: rws' =>
      replace_nth i v row :: assign_cells i values' rws'
  | _, _ => rws
  end.

(** The frame after [df[col] = values]: the column is overwritten, or
    added at the end when the frame has no such column. *)
Definition with_column (df : DataFrame) (col : string) (values : list cell)
  : DataFrame :=
  match index_of col (columns df) with
  | Some i =>
      {| columns := columns df; rows := assign_cells i values (rows df) |}
  | None =>
      {| columns := columns df ++ [col];
         rows := assign_cells (List.length (columns df)) values (rows df) |}
  end.

(** [Series.isin(values)]. *)
Definition isin (series : list cell) (values : list cell) : list bool :=
  map (fun c => existsb (cell_eqb c) values) series.

(** [Series.astype(str)] (pandas 2): every cell becomes its text. *)
Definition astype_str (series : list cell) : list cell :=
  map (fun c => StrV (py_str c)) series.

(** [DataFrame.empty]: some axis has length zero. *)
Definition empty (df : DataFrame) : bool :=
  match columns df, rows df with
  | _ :: _, _ :: _ => false
  | _, _ => true
  end.

Fixpoint map_result {A B : Type} (f : A -> result B) (xs : list A)
  : result (list B) :=
  match xs with
  | [] => Ok []
  | x :: xs' =>
      let? y := f x in
      let? ys := map_result f xs' in
      Ok (y :: ys)
  end.

(** ** Regular expressions: [Series.str.contains]

    [Series.str.contains(pat, na=False)] keeps pandas' default
    [regex=True]: it compiles [pat] with [re.compile] and tests each text
    with [pattern.search].  The fragment of the [re] syntax modelled here
    has ordinary characters, the wildcard [.] and a backslash before a
    character that is no letter and no digit; any other special character
    gives [NotModelled]. *)

Inductive re_atom : Type :=
| Lit (c : ascii)
| AnyChar.

Definition is_special (c : ascii) : bool :=
  existsb (Ascii.eqb c)
    (list_ascii_of_string ".^$*+?{}[]\|()").

Definition is_alnum (c : ascii) : bool :=
  is_digit c
  || (Ascii.leb "a" c && Ascii.leb c "z")%char
  || (Ascii.leb "A" c && Ascii.leb c "Z")%char.

Fixpoint sre_parse (pat : string) : result (list re_atom) :=
  match pat with
  | EmptyString => Ok []
  | String c p =>
      if Ascii.eqb c "." then
        let? r := sre_parse p in Ok (AnyChar :: r)
      else if Ascii.eqb c "\" then
        match p with
        | EmptyString => Raise ReError   (* bad escape (end of pattern) *)
        | String e q =>
            if is_alnum e then Raise NotModelled
            else let? r := sre_parse q in Ok (Lit e :: r)
        end
      else if is_special c then Raise NotModelled
      else let? r := sre_parse p in Ok (Lit c :: r)
  end.

(** Without the DOTALL flag the wildcard matches every character except
    the newline. *)
Definition atom_matches (a : re_atom) (c : ascii) : bool :=
  match a with
  | Lit x => Ascii.eqb x c
  | AnyChar => negb (Ascii.eqb c "010")
  end.

Fixpoint match_here (p : list re_atom) (s : string) : bool :=
  match p, s with
  | [], _ => true
  | _ :: _, EmptyString => false
  | a :: p', String c s' => atom_matches a c && match_here p' s'
  end.

(** [pattern.search(s) is not None]: a match starting at some position. *)
Fixpoint re_search (p : list re_atom) (s : string) : bool :=
  match_here p s
  || match s with
     | EmptyString => false
     | String _ s' => re_search p s'
     end.

(** An element that is no text gives the [na] value, here [False]. *)
Definition str_contains (series : list cell) (pat : string)
  : result (list bool) :=
  let? p := sre_parse pat in
  Ok (map (fun c => match c with
                    | StrV s => re_search p s
                    | _ => false
                    end) series).

(** [label in text], the substring test the specification speaks of. *)
Definition contains_substring (text label : string) : Prop :=
  exists pre post : string, text = (pre ++ label ++ post)%string.

(** A text without any character that is special in a pattern. *)
Fixpoint plain (s : string) : bool :=
  match s with
  | EmptyString => true
  | String c s' => negb (is_special c) && plain s'
  end.

(** ** The store of frames and its monad *)

Definition ref : Type := nat.

Definition store : Type := list DataFrame.

Definition no_frame : DataFrame := {| columns := []; rows := [] |}.

Definition M (A : Type) : Type := store -> result (A * store).

Definition ret {A : Type} (a : A) : M A := fun h => Ok (a, h).

Definition bind {A B : Type} (m : M A) (k : A -> M B) : M B :=
  fun h =>
    match m h with
    | Ok (a, h') => k a h'
    | Raise e => Raise e
    end.

Notation "x <- m ;; k" := (bind m (fun x => k))
  (at level 61, m at next level, right associativity).
Notation "' pat <- m ;; k" :=
  (bind m (fun x => match x with pat => k end))
  (at level 61, pat pattern, m at next level, right associativity).
Notation "m ;; k" := (bind m (fun _ => k))
  (at level 61, right associativity).

Definition lift {A : Type} (r : result A) : M A :=
  fun h =>
    match r with
    | Ok a => Ok (a, h)
    | Raise e => Raise e
    end.

Definition deref (r : ref) : M DataFrame :=
  fun h => Ok (nth r h no_frame, h).

(** A new object: its reference is fresh. *)
Definition alloc (d : DataFrame) : M ref :=
  fun h => Ok (List.length h, h ++ [d]).

Fixpoint update (r : ref) (d : DataFrame) (h : store) : store :=
  match r, h with
  | _, [] => []
  | O, _ :: t => d :: t
  | S r', x :: t => x :: update r' d t
  end.

(** An existing object is overwritten in place. *)
Definition overwrite (r : ref) (d : DataFrame) : M unit :=
  fun h => Ok (tt, update r d h).

(** [df.copy()] *)
Definition copy (df : ref) : M ref :=
  d <- deref df ;; alloc d.

(** [df[col]] *)
Definition getitem (df : ref) (col : string) : M (list cell) :=
  d <- deref df ;; lift (get_column d col).

(** [df[mask]] *)
Definition getitem_mask (df : ref) (mask : list bool) : M ref :=
  d <- deref df ;; alloc (boolean_index d mask).

(** [df[col] = values] *)
Definition setitem (df : ref) (col : string) (values : list cell) : M unit :=
  d <- deref df ;; overwrite df (with_column d col values).

(** A [for] loop over a list that threads the variables it assigns. *)
Fixpoint for_each {A S : Type} (xs : list A) (body : A -> S -> M S) (s : S)
  : M S :=
  match xs with
  | [] => ret s
  | x :: xs' => s' <- body x s ;; for_each xs' body s'
  end.

(** ** [FilterManager] *)

(** [create_percentage_mask]: [df.apply(lambda row: ..., axis=1)]; the
    lambda reads [row[col]] on every row. *)
Definition create_percentage_mask (df : ref) (col : string) (value : Z)
  : M (list bool) :=
  d <- deref df ;;
  lift (map_result
          (fun row =>
             let? c := row_get (columns d) row col in
             if negb (isna c) then is_in_percentage_range value c
             else Ok false)
          (rows d)).

Definition apply_filters (df : ref) (filters : list (string * list cell))
    (slider_filters : list (string * Z)) : M (ref * bool) :=
  filtered_df <- copy df ;;
  (* Apply regular filters *)
  state <- for_each filters
    (fun '(col, selected_values) '(filtered_df, any_filter_applied) =>
       match selected_values with
       | [] => ret (filtered_df, any_filter_applied)
       | _ :: _ =>
           series <- getitem filtered_df col ;;
           filtered_df' <- getitem_mask filtered_df (isin series selected_values) ;;
           ret (filtered_df', true)
       end)
    (filtered_df, false) ;;
  (* Apply slider filters *)
  for_each slider_filters
    (fun '(col, selected_value) '(filtered_df, any_filter_applied) =>
       if selected_value =? 50 then ret (filtered_df, any_filter_applied)
       else
         mask <- create_percentage_mask filtered_df col selected_value ;;
         filtered_df' <- getitem_mask filtered_df mask ;;
         ret (filtered_df', true))
    state.

(** ** [ExerciseManager] *)

Definition apply_exercise_filters (df : ref)
    (filters : list (string * list cell)) : M ref :=
  filtered_df <- copy df ;;
  for_each filters
    (fun '(col, selected_values) filtered_df =>
       match selected_values with
       | [] => ret filtered_df
       | _ :: _ =>
           series <- getitem filtered_df col ;;
           getitem_mask filtered_df (isin series selected_values)
       end)
    filtered_df.

(** ** [main]: the scenario cross-reference *)

Fixpoint mask_or (a b : list bool) : list bool :=
  match a, b with
  | x :: a', y :: b' => (x || y) :: mask_or a' b'
  | _, _ => a
  end.

(** Lines 208 to 212 of [main]: the mask over [df_exercises]. *)
Definition exercise_mask (df_exercises : ref)
    (selected_escenarios : list string) : M (list bool) :=
  d <- deref df_exercises ;;
  for_each (filter (prefix "Escenario:") (columns d))
    (fun col exercise_mask =>
       series <- getitem df_exercises col ;;
       setitem df_exercises col (astype_str series) ;;
       for_each selected_escenarios
         (fun escenario exercise_mask =>
            series <- getitem df_exercises col ;;
            hits <- lift (str_contains series escenario) ;;
            ret (mask_or exercise_mask hits))
         exercise_mask)
    (repeat false (List.length (rows d))).

Inductive shown : Type :=
| Dataframe (df : ref)      (* st.dataframe *)
| Warning (msg : string).   (* st.warning *)

Definition no_exercise_found : string :=
  "No se encontraron ejercicios que coincidan con los criterios seleccionados.".

Definition no_scenario_selected : string :=
  "Por favor, selecciona al menos un Escenario para filtrar los ejercicios.".

(** Lines 206 to 233 of [main].  The two widgets are the presentation
    layer: their answers, [selected_escenarios] and [exercise_filters],
    are arguments.  [exercise_filters] is the dict that
    [ExerciseManager.create_exercise_filters] returns at line 218; that
    call, which reads four columns of the cross-referenced frame to build
    its widgets and raises when one of them is absent, is not part of this
    function.  The properties stated on [main_scenarios] are about the
    paths of [main] that end before that line, or hold whatever the dict
    is. *)
Definition main_scenarios (df_exercises : ref)
    (selected_escenarios : list string)
    (exercise_filters : list (string * list cell)) : M shown :=
  match selected_escenarios with
  | _ :: _ =>
      exercise_mask <- exercise_mask df_exercises selected_escenarios ;;
      filtered_exercises <- getitem_mask df_exercises exercise_mask ;;
      d <- deref filtered_exercises ;;
      if negb (empty d) then
        final_exercises <-
          apply_exercise_filters filtered_exercises exercise_filters ;;
        ret (Dataframe final_exercises)
      else ret (Warning no_exercise_found)
  | [] => ret (Warning no_scenario_selected)
  end.

(** ** Notions used by the statements *)

Fixpoint all_digits (s : string) : bool :=
  match s with
  | EmptyString => true
  | String c s' => is_digit c && all_digits s'
  end.

Fixpoint no_digit (s : string) : bool :=
  match s with
  | EmptyString => true
  | String c s' => negb (is_digit c) && no_digit s'
  end.

(** A non-empty text of decimal digits. *)
Definition digit_run (s : string) : Prop :=
  s <> EmptyString /\ all_digits s = true.

(** The text of [n] digits. *)
Fixpoint ones (n : nat) : string :=
  match n with
  | O => EmptyString
  | S n' => String "1" (ones n')
  end.

(** No run of digits in the text of the cell is longer than [int]
    converts. *)
Definition short_runs (c : cell) : bool :=
  forallb (fun run => Z.of_nat (String.length run) <=? max_str_digits)
          (findall_digits (py_str c)).

(** The answer of [is_in_percentage_range] as a boolean: true when it
    returns [True]. *)
Definition in_range (value : Z) (c : cell) : bool :=
  match is_in_percentage_range value c with
  | Ok b => b
  | Raise _ => false
  end.

(** A categorical predicate is active when its selection is not empty, a
    slider predicate when its value is not the neutral 50. *)
Definition active_regular (f : string * list cell) : bool :=
  match snd f with
  | [] => false
  | _ :: _ => true
  end.

Definition active_slider (f : string * Z) : bool :=
  negb (snd f =? 50).

(** What one predicate says of one row of a frame with columns [cols]. *)
Definition regular_pass (cols : list string) (row : list cell)
    (f : string * list cell) : bool :=
  negb (active_regular f)
  || match index_of (fst f) cols with
     | Some i => existsb (cell_eqb (cell_at i row)) (snd f)
     | None => false
     end.

Definition slider_pass (cols : list string) (row : list cell)
    (f : string * Z) : bool :=
  negb (active_slider f)
  || match index_of (fst f) cols with
     | Some i => negb (isna (cell_at i row)) && in_range (snd f) (cell_at i row)
     | None => false
     end.

Definition row_passes (cols : list string)
    (filters : list (string * list cell)) (slider_filters : list (string * Z))
    (row : list cell) : bool :=
  forallb (regular_pass cols row) filters
  && forallb (slider_pass cols row) slider_filters.

(** The columns of the active predicates are columns of the frame. *)
Definition regular_known (cols : list string)
    (filters : list (string * list cell)) : Prop :=
  forall f, In f filters -> active_regular f = true -> In (fst f) cols.

Definition slider_known (cols : list string)
    (slider_filters : list (string * Z)) : Prop :=
  forall f, In f slider_filters -> active_slider f = true -> In (fst f) cols.

(** The cells of the frame under the columns of the active sliders have
    no run of digits longer than [int] converts. *)
Definition slider_cells_short (d : DataFrame)
    (slider_filters : list (string * Z)) : bool :=
  forallb
    (fun f =>
       negb (active_slider f)
       || match index_of (fst f) (columns d) with
          | Some i => forallb (fun row => short_runs (cell_at i row)) (rows d)
          | None => true
          end)
    slider_filters.

(** A computation that only adds objects to the store: every object that
    was there keeps its value. *)
Definition extends {A : Type} (m : M A) : Prop :=
  forall h a h', m h = Ok (a, h') -> exists ext, h' = h ++ ext.

(** The pattern of a label; a label made of ordinary characters is its own
    pattern. *)
Definition compiles (pat : string) : Prop :=
  exists p, sre_parse pat = Ok p.

Definition label_hits (label text : string) : bool :=
  match sre_parse label with
  | Ok p => re_search p text
  | Raise _ => false
  end.

Fixpoint literal (s : string) : list re_atom :=
  match s with
  | EmptyString => []
  | String c s' => Lit c :: literal s'
  end.

Definition scenario_columns (d : DataFrame) : list string :=
  filter (prefix "Escenario:") (columns d).

(** The mask entry of a row under the reading of labels as patterns. *)
Definition row_hits (cols scenario_cols : list string) (labels : list string)
    (row : list cell) : bool :=
  existsb
    (fun col =>
       match index_of col cols with
       | Some i => existsb (fun l => label_hits l (py_str (cell_at i row))) labels
       | None => false
       end)
    scenario_cols.

(** The row after [astype(str)] has been written back into column [i]. *)
Definition stringify (i : nat) (row : list cell) : list cell :=
  replace_nth i (StrV (py_str (cell_at i row))) row.

(** The positions of the columns [scols] among [cols]. *)
Definition positions (cols scols : list string) (j : nat) : bool :=
  existsb
    (fun col =>
       match index_of col cols with
       | Some i => Nat.eqb i j
       | None => false
       end)
    scols.

(** [g] turns the cells at the positions [P] of a row into their texts
    and leaves the other cells as they are. *)
Definition written (P : nat -> bool) (g : list cell -> list cell) : Prop :=
  forall row j,
    cell_at j (g row)
    = if P j then StrV (py_str (cell_at j row)) else cell_at j row.

(** What the specification asks of a surviving row: its cell is one of
    the selected values, for every categorical selection that is not
    empty; its cell is not missing and its range holds the value, for
    every slider that is not at 50. *)
Definition satisfies_regular (cols : list string)
    (filters : list (string * list cell)) (row : list cell) : Prop :=
  forall col vals,
    In (col, vals) filters -> vals <> [] ->
    exists c, row_get cols row col = Ok c /\ In c vals.


Definition all_inert (filters : list (string * list cell))
    (slider_filters : list (string * Z)) : Prop :=
  (forall col vals, In (col, vals) filters -> vals = [])
  /\ (forall col q, In (col, q) slider_filters -> q = 50).

Definition some_active (filters : list (string * list cell))
    (slider_filters : list (string * Z)) : Prop :=
  (exists col vals, In (col, vals) filters /\ vals <> [])
  \/ (exists col q, In (col, q) slider_filters /\ q <> 50).

(** ** Two small frames *)

Definition asymmetries_demo : DataFrame :=
  {| columns := ["Ojo Dominante";
                 "% Hemisferio Correspondiente al ojo (Natural)";
                 "Escenarios"];
     rows := [[StrV "Derecho"; StrV "40% - 60%"; StrV "Lectura"];
              [StrV "Izquierdo"; StrV "55"; StrV "Calculo"];
              [StrV "Derecho"; NaN; StrV "Memoria"];
              [NaN; StrV "60-80"; StrV "Lectura"];
              [StrV "Derecho"; IntV 55; StrV "Dibujo"]] |}.

Definition exercises_demo : DataFrame :=
  {| columns := ["Ejercicio"; "Escenario: 1"; "Escenario: 2"; "Filmina"];
     rows := [[StrV "E1"; StrV "Lectura"; NaN; IntV 1];
              [StrV "E2"; NaN; StrV "Nivel 125"; IntV 2];
              [StrV "E3"; StrV "Calculo"; IntV 15; IntV 1]] |}.

(** An exercises frame with the four columns that
    [ExerciseManager.create_exercise_filters] reads. *)
Definition exercises_levels_demo : DataFrame :=
  {| columns := ["Ejercicio"; "Escenario: 1"; "Filmina"; "Nivel de Ejercicio";
                 "Dificultad"; "Dificultad de Nivel Ejercicio"];
     rows := [[StrV "E1"; StrV "Lectura"; IntV 1; IntV 1; StrV "Baja"; IntV 2];
              [StrV "E2"; StrV "Calculo"; IntV 2; IntV 1; StrV "Alta"; IntV 3];
              [StrV "E3"; StrV "Lectura y Calculo"; IntV 1; IntV 2;
               StrV "Alta"; IntV 1]] |}.

(** A loop body that, from a valid reference, returns a valid reference
    that is not below it; [pr] reads the reference in the loop state. *)
Definition climbs {A S : Type} (pr : S -> ref) (body : A -> S -> M S) : Prop :=
  forall x s h s' h',
    (pr s < List.length h)%nat -> body x s h = Ok (s', h') ->
    (pr s <= pr s' < List.length h')%nat.

(** ** [DataManager.load_data]

    The calls that reach the spreadsheet are the data source; what they
    give is the argument [fetched], [None] when one of them raised.  The
    message of [st.error] is the presentation layer and is left out. *)

(** A row whose cells under the [width] columns are all missing. *)
Definition row_all_na (width : nat) (row : list cell) : bool :=
  forallb (fun j => isna (cell_at j row)) (seq 0 width).

(** A column position whose cells are all missing. *)
Definition column_all_na (rws : list (list cell)) (j : nat) : bool :=
  forallb (fun row => isna (cell_at j row)) rws.

(** [df.dropna(how='all')] *)
Definition dropna_rows (df : DataFrame) : DataFrame :=
  {| columns := columns df;
     rows := filter (fun row => negb (row_all_na (List.length (columns df)) row))
                    (rows df) |}.

(** The positions that [df.dropna(axis=1, how='all')] keeps. *)
Definition kept_positions (df : DataFrame) : list nat :=
  filter (fun j => negb (column_all_na (rows df) j))
         (seq 0 (List.length (columns df))).

(** [df.dropna(axis=1, how='all')] *)
Definition dropna_columns (df : DataFrame) : DataFrame :=
  {| columns := map (fun j => nth j (columns df) EmptyString) (kept_positions df);
     rows := map (fun row => map (fun j => cell_at j row) (kept_positions df))
                 (rows df) |}.

Definition load_data (fetched : option DataFrame) : DataFrame :=
  match fetched with
  | Some df => dropna_columns (dropna_rows df)
  | None => no_frame            (* except Exception: return pd.DataFrame() *)
  end.

(** ** [main]: the scenario column and the labels offered *)

(** Exceptions that the code below can raise besides those of [exn]. *)
Inductive failure : Type :=
| Raised (e : exn)
| TypeError       (* an order comparison between a text and a number *)
| IndexError.     (* [columns[-1]] on a frame without columns *)

Inductive attempt (A : Type) : Type :=
| Done (a : A)
| Failed (f : failure).

Arguments Done {A} a.
Arguments Failed {A} f.

Definition abind {A B} (r : attempt A) (k : A -> attempt B) : attempt B :=
  match r with
  | Done a => k a
  | Failed f => Failed f
  end.

Notation "'try' x ':=' r 'in' k" := (abind r (fun x => k))
  (at level 10, x name, r at level 100, k at level 200).

Definition of_result {A} (r : result A) : attempt A :=
  match r with
  | Ok a => Done a
  | Raise e => Failed (Raised e)
  end.

(** [needle in text] on two texts. *)
Fixpoint py_in (needle text : string) : bool :=
  prefix needle text
  || match text with
     | EmptyString => false
     | String _ rest => py_in needle rest
     end.

(** [next((col for col in columns if "Escenario" in col), columns[-1])]:
    the default is evaluated before [next] is called. *)
Definition escenarios_col (cols : list string) : attempt string :=
  match cols with
  | [] => Failed IndexError
  | _ :: _ =>
      Done (match find (py_in "Escenario") cols with
            | Some col => col
            | None => last cols EmptyString
            end)
  end.

(** [Series.dropna()] *)
Definition dropna (series : list cell) : list cell :=
  filter (fun c => negb (isna c)) series.

(** [Series.unique()]: the values in the order of their first
    occurrence. *)
Definition unique (series : list cell) : list cell :=
  fold_left
    (fun seen c => if existsb (cell_eqb c) seen then seen else seen ++ [c])
    series [].

(** [filtered_df[escenarios_col].dropna().unique()] *)
Definition all_escenarios (filtered_df : DataFrame) (col : string)
  : result (list cell) :=
  let? series := get_column filtered_df col in
  Ok (unique (dropna series)).

(** [all_escenarios[:5] if len(all_escenarios) > 5 else all_escenarios] *)
Definition default_escenarios (labels : list cell) : list cell :=
  if (5 <? List.length labels)%nat then firstn 5 labels else labels.

(** ** [FilterManager.create_sidebar_filters] *)

(** The widgets of the sidebar: what the user answers to a multiselect
    with a label, options and a default, and to a slider with a label,
    bounds, a value and a step. *)
Record widgets : Type := {
  multiselect : string -> list cell -> list cell -> list cell;
  slider : string -> Z -> Z -> Z -> Z -> Z
}.

(** The user who leaves every widget as it is drawn. *)
Definition untouched : widgets :=
  {| multiselect := fun _ _ default => default;
     slider := fun _ _ _ value _ => value |}.

Definition slider_columns : list string :=
  ["% Hemisferio Correspondiente al ojo (Natural)";
   "% de Hemisferio Recesivo (Anitnatural)"].

(** [a < b] on two values: numbers by value, texts by code points; a
    missing value, a float, is below nothing and nothing is below it. *)
Definition cell_lt (a b : cell) : attempt bool :=
  match a, b with
  | IntV x, IntV y => Done (x <? y)
  | StrV s, StrV t => Done (String.ltb s t)
  | NaN, NaN | NaN, IntV _ | IntV _, NaN => Done false
  | _, _ => Failed TypeError
  end.

Fixpoint insert_sorted (x : cell) (sorted : list cell) : attempt (list cell) :=
  match sorted with
  | [] => Done [x]
  | y :: rest =>
      try below := cell_lt x y in
      if below then Done (x :: y :: rest)
      else
        try rest' := insert_sorted x rest in
        Done (y :: rest')
  end.

(** [sorted(values)] on values without a missing one, as the sidebar
    calls it after [dropna]: an insertion sort, whose result and failure
    on such values are those of any comparison sort. *)
Fixpoint py_sorted (values : list cell) : attempt (list cell) :=
  match values with
  | [] => Done []
  | x :: rest =>
      try sorted := py_sorted rest in
      insert_sorted x sorted
  end.

(** [d[key] = value] on a dict kept as the list of its items. *)
Fixpoint dict_set {V : Type} (key : string) (value : V)
    (d : list (string * V)) : list (string * V) :=
  match d with
  | [] => [(key, value)]
  | (k, v) :: rest =>
      if String.eqb k key then (k, value) :: rest
      else (k, v) :: dict_set key value rest
  end.

Definition create_sidebar_filters (ui : widgets) (df : DataFrame)
    (escenarios_col : string)
  : attempt (list (string * list cell) * list (string * Z)) :=
  let filter_cols :=
    filter (fun col => negb (String.eqb col escenarios_col)
                       && negb (String.eqb col "Descripcion"))
           (columns df) in
  fold_left
    (fun state col_name =>
       try st := state in
       let '(filters, slider_filters) := st in
       if existsb (String.eqb col_name) slider_columns then
         Done (filters,
               dict_set col_name
                 (slider ui ("Filtrar por " ++ col_name)%string 0 100 50 1)
                 slider_filters)
       else
         try series := of_result (get_column df col_name) in
         try unique_values := py_sorted (unique (dropna series)) in
         Done (dict_set col_name
                 (multiselect ui ("Filtrar por " ++ col_name)%string
                    unique_values [])
                 filters,
               slider_filters))
    filter_cols
    (Done ([], [])).

(** A list that holds a text and a number. *)
Definition mixed (values : list cell) : Prop :=
  (exists s, In (StrV s) values) /\ (exists z, In (IntV z) values).

Definition is_text (c : cell) : bool :=
  match c with
  | StrV _ => true
  | _ => false
  end.

Definition is_number (c : cell) : bool :=
  match c with
  | IntV _ => true
  | _ => false
  end.

(** [a <= b] as the sort leaves neighbours: [b] is not below [a]. *)
Definition cell_le (a b : cell) : Prop := cell_lt b a = Done false.

(** A frame as [load_data] wants to return it: every row has one cell
    per column and a cell that is not missing, and every column has a
    cell that is not missing. *)
Definition tidy_rows (d : DataFrame) : Prop :=
  forall row, In row (rows d) ->
    List.length row = List.length (columns d)
    /\ exists c, In c row /\ c <> NaN.

Definition tidy_columns (d : DataFrame) : Prop :=
  forall k, (k < List.length (columns d))%nat ->
    exists row, In row (rows d) /\ cell_at k row <> NaN.

(** The filters a run of the loop has put into the two dicts. *)
Definition built_by (ui : widgets) (df : DataFrame) (cols : list string)
    (f f' : list (string * list cell)) (s s' : list (string * Z)) : Prop :=
  (forall k, In k (map fst f')
             <-> In k (map fst f) \/ (In k cols /\ ~ In k slider_columns))
  /\ (forall k, In k (map fst s')
                <-> In k (map fst s) \/ (In k cols /\ In k slider_columns))
  /\ (forall k v, In (k, v) f' ->
        In (k, v) f
        \/ exists series options,
             get_column df k = Ok series
             /\ py_sorted (unique (dropna series)) = Done options
             /\ v = multiselect ui ("Filtrar por " ++ k)%string options [])
  /\ (forall k q, In (k, q) s' ->
        In (k, q) s \/ q = slider ui ("Filtrar por " ++ k)%string 0 100 50 1).

(** * Properties *)

(** ** The range matcher *)

Lemma all_digits_app (s t : string) :
  all_digits (s ++ t)%string = all_digits s && all_digits t.
Proof.
  induction s as [|c s IH]; simpl; [reflexivity|].
  now rewrite IH, andb_assoc.
Qed.

Lemma flush_digit_run (run : string) :
  all_digits run = true -> Forall digit_run (flush run).
Proof.
  intros H. destruct run; simpl; constructor; [|constructor].
  split; [discriminate|exact H].
Qed.

Lemma findall_from_runs (s run : string) :
  all_digits run = true -> Forall digit_run (findall_from run s).
Proof.
  revert run. induction s as [|c s IH]; intros run Hrun; simpl.
  - now apply flush_digit_run.
  - destruct (is_digit c) eqn:Hc.
    + apply IH. rewrite all_digits_app, Hrun. simpl. now rewrite Hc.
    + apply Forall_app. split.
      * now apply flush_digit_run.
      * now apply IH.
Qed.

Lemma findall_digits_runs (s : string) :
  Forall digit_run (findall_digits s).
Proof. now apply findall_from_runs. Qed.

Lemma int_of_digits_total (s : string) :
  all_digits s = true -> forall acc, exists n, int_of_digits acc s = Ok n.
Proof.
  induction s as [|c s IH]; simpl; intros H acc.
  - now exists acc.
  - apply andb_true_iff in H as [Hc Hs]. rewrite Hc. now apply IH.
Qed.


Lemma py_int_total (s : string) :
  digit_run s -> Z.of_nat (String.length s) <= max_str_digits ->
  exists n, py_int s = Ok n.
Proof.
  intros [Hne Hd] Hlen. destruct s as [|c s]; [contradiction|].
  unfold py_int. apply Z.leb_le in Hlen. rewrite Hlen.
  now apply int_of_digits_total.
Qed.

Lemma py_int_long (s : string) :
  max_str_digits < Z.of_nat (String.length s) -> py_int s = Raise ValueError.
Proof.
  intros H. destruct s as [|c s]; [reflexivity|].
  unfold py_int. apply Z.leb_gt in H. now rewrite H.
Qed.


Lemma py_int_short (s : string) (n : Z) :
  py_int s = Ok n -> Z.of_nat (String.length s) <= max_str_digits.
Proof.
  destruct s as [|c s]; unfold py_int; [discriminate|].
  destruct (Z.of_nat (String.length (String c s)) <=? max_str_digits) eqn:E;
    [intros _; now apply Z.leb_le|discriminate].
Qed.

(** On a cell without a run of digits longer than [int] converts, the
    range check returns. *)
Lemma is_in_percentage_range_short (value : Z) (range_str : cell) :
  short_runs range_str = true ->
  is_in_percentage_range value range_str = Ok (in_range value range_str).
Proof.
  intros Hshort.
  assert (H : exists b, is_in_percentage_range value range_str = Ok b).
  { unfold is_in_percentage_range.
    destruct (isna range_str); [now exists false|].
    pose proof (findall_digits_runs (py_str range_str)) as Hruns.
    unfold short_runs in Hshort.
    destruct (findall_digits (py_str range_str)) as [|a [|b [|c l]]];
      try (now exists false).
    - inversion Hruns as [|? ? Ha _]; subst.
      cbn [forallb] in Hshort. apply andb_true_iff in Hshort as [La _].
      apply Z.leb_le in La.
      destruct (py_int_total a Ha La) as [n Hn]. rewrite Hn. now eexists.
    - inversion Hruns as [|? ? Ha Hr]; subst.
      inversion Hr as [|? ? Hb _]; subst.
      cbn [forallb] in Hshort. apply andb_true_iff in Hshort as [La Hshort].
      apply andb_true_iff in Hshort as [Lb _].
      apply Z.leb_le in La. apply Z.leb_le in Lb.
      destruct (py_int_total a Ha La) as [lo Hlo].
      destruct (py_int_total b Hb Lb) as [hi Hhi].
      rewrite Hlo. simpl. rewrite Hhi. simpl.
      destruct (lo <=? value); now eexists. }
  destruct H as [b Hb]. unfold in_range. now rewrite Hb.
Qed.


(** The range check is false, whatever the value, on a missing cell and
    on a text with no run of digits or with three runs or more. *)
Lemma is_in_percentage_range_unparseable (value : Z) (range_str : cell) :
  isna range_str = true
  \/ List.length (findall_digits (py_str range_str)) = 0%nat
  \/ (3 <= List.length (findall_digits (py_str range_str)))%nat ->
  is_in_percentage_range value range_str = Ok false.
Proof.
  unfold is_in_percentage_range.
  destruct (isna range_str); [reflexivity|].
  destruct (findall_digits (py_str range_str)) as [|a [|b [|c l]]];
    simpl; try reflexivity.
  - intros [H|[H|H]]; [discriminate|discriminate|lia].
  - intros [H|[H|H]]; [discriminate|discriminate|lia].
Qed.

Lemma length_ones (n : nat) : String.length (ones n) = n.
Proof. induction n as [|n IH]; simpl; [reflexivity|now rewrite IH]. Qed.

Lemma all_digits_ones (n : nat) : all_digits (ones n) = true.
Proof. induction n as [|n IH]; [reflexivity|exact IH]. Qed.

Lemma string_app_nil_r (s : string) : (s ++ EmptyString)%string = s.
Proof. induction s as [|c s IH]; simpl; [reflexivity|now rewrite IH]. Qed.

Lemma string_app_assoc (s t u : string) :
  (s ++ (t ++ u))%string = ((s ++ t) ++ u)%string.
Proof. induction s as [|c s IH]; simpl; [reflexivity|now rewrite IH]. Qed.

(** How [findall_digits] cuts a text: digits extend the run being read,
    any other character closes it. *)
Lemma findall_from_digits (ds run s : string) :
  all_digits ds = true ->
  findall_from run (ds ++ s)%string = findall_from (run ++ ds)%string s.
Proof.
  revert run. induction ds as [|c ds IH]; intros run H; simpl.
  - now rewrite string_app_nil_r.
  - simpl in H. apply andb_true_iff in H as [Hc Hds]. rewrite Hc.
    rewrite (IH _ Hds). f_equal. rewrite <- string_app_assoc. reflexivity.
Qed.

Lemma findall_from_no_digit (nd s : string) :
  no_digit nd = true ->
  findall_from EmptyString (nd ++ s)%string = findall_from EmptyString s.
Proof.
  induction nd as [|c nd IH]; simpl; intros H; [reflexivity|].
  apply andb_true_iff in H as [Hc Hnd]. apply negb_true_iff in Hc.
  rewrite Hc. simpl. now apply IH.
Qed.

Lemma findall_from_separator (run nd s : string) :
  no_digit nd = true -> nd <> EmptyString ->
  findall_from run (nd ++ s)%string = flush run ++ findall_from EmptyString s.
Proof.
  intros H Hne. destruct nd as [|c nd]; [contradiction|]. simpl in *.
  apply andb_true_iff in H as [Hc Hnd]. apply negb_true_iff in Hc.
  rewrite Hc. f_equal. now apply findall_from_no_digit.
Qed.

Lemma findall_from_tail (run nd : string) :
  no_digit nd = true -> findall_from run nd = flush run.
Proof.
  intros H. destruct nd as [|c nd]; [reflexivity|].
  rewrite <- (string_app_nil_r (String c nd)).
  rewrite findall_from_separator by (auto; discriminate).
  simpl. now rewrite app_nil_r.
Qed.

Lemma flush_run (ds : string) : digit_run ds -> flush ds = [ds].
Proof. intros [Hne _]. now destruct ds. Qed.

(** A text with one run of digits between characters that are no digits
    gives that run, and with two runs apart gives both, in their order. *)
Lemma findall_digits_one (pre ds post : string) :
  no_digit pre = true -> digit_run ds -> no_digit post = true ->
  findall_digits (pre ++ ds ++ post)%string = [ds].
Proof.
  intros Hpre Hds Hpost. unfold findall_digits.
  rewrite findall_from_no_digit by exact Hpre.
  rewrite findall_from_digits by apply Hds. simpl.
  rewrite findall_from_tail by exact Hpost. now apply flush_run.
Qed.

Lemma findall_digits_two (pre lo mid hi post : string) :
  no_digit pre = true -> digit_run lo ->
  no_digit mid = true -> mid <> EmptyString ->
  digit_run hi -> no_digit post = true ->
  findall_digits (pre ++ lo ++ mid ++ hi ++ post)%string = [lo; hi].
Proof.
  intros Hpre Hlo Hmid Hne Hhi Hpost. unfold findall_digits.
  rewrite findall_from_no_digit by exact Hpre.
  rewrite findall_from_digits by apply Hlo. simpl.
  rewrite findall_from_separator by assumption.
  rewrite (flush_run lo Hlo). simpl. f_equal.
  rewrite findall_from_digits by apply Hhi. simpl.
  rewrite findall_from_tail by exact Hpost. now apply flush_run.
Qed.

Example range_single : is_in_percentage_range 50 (StrV "50%") = Ok true.
Proof. reflexivity. Qed.

Example range_pair : is_in_percentage_range 55 (StrV "40% - 60%") = Ok true.
Proof. reflexivity. Qed.

Example range_reversed :
  is_in_percentage_range 50 (StrV "60-40") = Ok false
  /\ is_in_percentage_range 50 (StrV "40-60") = Ok true.
Proof. split; reflexivity. Qed.

Example range_three : is_in_percentage_range 2 (StrV "1, 2, 3") = Ok false.
Proof. reflexivity. Qed.

Example range_signed_cell : is_in_percentage_range 7 (IntV (-7)) = Ok true.
Proof. reflexivity. Qed.

(** C6.  When the text of a cell that is not missing has exactly one
    maximal run of digits, read by [int] as [n], the answer of
    [is_in_percentage_range] on a value [q] is [q == n]: true iff
    [q = n]. *)
Theorem is_in_percentage_range_single (q : Z) (c : cell) (run : string) (n : Z) :
  isna c = false ->
  findall_digits (py_str c) = [run] ->
  py_int run = Ok n ->
  is_in_percentage_range q c = Ok (q =? n)
  /\ (is_in_percentage_range q c = Ok true <-> q = n).
Proof.
  intros Hna Hruns Hn.
  assert (E : is_in_percentage_range q c = Ok (q =? n)).
  { unfold is_in_percentage_range. now rewrite Hna, Hruns, Hn. }
  split; [exact E|]. rewrite E. split.
  - intros H. injection H as H. now apply Z.eqb_eq.
  - intros ->. now rewrite Z.eqb_refl.
Qed.

Lemma is_in_percentage_range_single_witness :
  isna (StrV "aprox. 50 %") = false
  /\ findall_digits (py_str (StrV "aprox. 50 %")) = ["50"]
  /\ py_int "50" = Ok 50
  /\ is_in_percentage_range 50 (StrV "aprox. 50 %") = Ok (50 =? 50)
  /\ (is_in_percentage_range 50 (StrV "aprox. 50 %") = Ok true <-> 50 = 50).
Proof.
  split; [reflexivity|]. split; [reflexivity|]. split; [reflexivity|].
  apply (is_in_percentage_range_single 50 (StrV "aprox. 50 %") "50" 50);
    reflexivity.
Defined.

(** C7.  When the text of a cell that is not missing has exactly two
    maximal runs of digits, read by [int] as [lo] and [hi] in the order of
    the text, the answer of [is_in_percentage_range] on a value [q] is
    [lo <= q <= hi] on that pair as it stands: nothing is reordered when
    [lo > hi], and the answer is then false. *)
Theorem is_in_percentage_range_pair (q : Z) (c : cell) (a b : string) (lo hi : Z) :
  isna c = false ->
  findall_digits (py_str c) = [a; b] ->
  py_int a = Ok lo ->
  py_int b = Ok hi ->
  is_in_percentage_range q c = Ok ((lo <=? q) && (q <=? hi))
  /\ (is_in_percentage_range q c = Ok true <-> lo <= q <= hi).
Proof.
  intros Hna Hruns Hlo Hhi.
  assert (E : is_in_percentage_range q c = Ok ((lo <=? q) && (q <=? hi))).
  { unfold is_in_percentage_range. rewrite Hna, Hruns, Hlo. simpl.
    destruct (lo <=? q); [now rewrite Hhi | reflexivity]. }
  split; [exact E|]. rewrite E. split.
  - intros H. injection H as H. apply andb_true_iff in H as [H1 H2]. lia.
  - intros [H1 H2]. f_equal. apply andb_true_iff. split; lia.
Qed.

Lemma is_in_percentage_range_pair_witness :
  isna (StrV "60-40") = false
  /\ findall_digits (py_str (StrV "60-40")) = ["60"; "40"]
  /\ py_int "60" = Ok 60
  /\ py_int "40" = Ok 40
  /\ is_in_percentage_range 50 (StrV "60-40") = Ok ((60 <=? 50) && (50 <=? 40))
  /\ (is_in_percentage_range 50 (StrV "60-40") = Ok true <-> 60 <= 50 <= 40).
Proof.
  split; [reflexivity|]. split; [reflexivity|].
  split; [reflexivity|]. split; [reflexivity|].
  apply (is_in_percentage_range_pair 50 (StrV "60-40") "60" "40" 60 40);
    reflexivity.
Defined.

(** A text that starts with a run of digits longer than [int] converts,
    followed by characters that are no digits: the range check raises
    [ValueError]. *)
Lemma is_in_percentage_range_long_run (q : Z) (n : nat) (post : string) :
  max_str_digits < Z.of_nat n -> no_digit post = true ->
  findall_digits (ones n ++ post)%string = [ones n]
  /\ is_in_percentage_range q (StrV (ones n ++ post)%string) = Raise ValueError.
Proof.
  intros Hn Hpost.
  assert (Hrun : digit_run (ones n)).
  { split; [|apply all_digits_ones]. destruct n; [|discriminate].
    unfold max_str_digits in Hn. simpl in Hn. lia. }
  assert (E : findall_digits (ones n ++ post)%string = [ones n]).
  { apply (findall_digits_one EmptyString (ones n) post); auto. }
  split; [exact E|].
  unfold is_in_percentage_range. cbn [isna py_str]. rewrite E.
  rewrite py_int_long; [reflexivity|]. now rewrite length_ones.
Qed.

(** C8.  The range check is not total: on a text whose only run of digits
    has 4301 digits, one more than [int] converts, it raises [ValueError]
    where the claim has it return false or a boolean. *)
Theorem is_in_percentage_range_raises :
  isna (StrV (ones 4301 ++ "%")%string) = false
  /\ findall_digits (py_str (StrV (ones 4301 ++ "%")%string)) = [ones 4301]
  /\ String.length (ones 4301) = 4301%nat
  /\ is_in_percentage_range 50 (StrV (ones 4301 ++ "%")%string) = Raise ValueError.
Proof.
  destruct (is_in_percentage_range_long_run 50 4301 "%") as [E R];
    [reflexivity|reflexivity|].
  split; [reflexivity|]. split; [exact E|]. split; [apply length_ones|exact R].
Qed.

(** ** Frames and the store *)

Lemma index_of_In (col : string) (cols : list string) :
  In col cols -> exists i, index_of col cols = Some i.
Proof.
  induction cols as [|c cs IH]; simpl; [contradiction|].
  intros H. destruct (String.eqb col c) eqn:E; [now exists O|].
  destruct H as [H|H].
  - subst c. now rewrite String.eqb_refl in E.
  - destruct (IH H) as [i Hi]. rewrite Hi. now exists (S i).
Qed.

Lemma select_map {A : Type} (f : A -> bool) (xs : list A) :
  select (map f xs) xs = filter f xs.
Proof.
  induction xs as [|x xs IH]; simpl; [reflexivity|].
  rewrite IH. reflexivity.
Qed.

Lemma filter_filter {A : Type} (f g : A -> bool) (xs : list A) :
  filter g (filter f xs) = filter (fun x => f x && g x) xs.
Proof.
  induction xs as [|x xs IH]; simpl; [reflexivity|].
  destruct (f x); simpl; [destruct (g x)|]; now rewrite IH.
Qed.

Lemma map_result_ok {A B : Type} (f : A -> result B) (g : A -> B) (xs : list A) :
  (forall x, In x xs -> f x = Ok (g x)) -> map_result f xs = Ok (map g xs).
Proof.
  induction xs as [|x xs IH]; simpl; intros H; [reflexivity|].
  rewrite (H x (or_introl eq_refl)). simpl.
  rewrite IH by (intros y Hy; apply H; now right). reflexivity.
Qed.

Lemma filter_all {A : Type} (f : A -> bool) (xs : list A) :
  (forall x, f x = true) -> filter f xs = xs.
Proof.
  intros H. induction xs as [|x xs IH]; simpl; [reflexivity|].
  now rewrite H, IH.
Qed.

Lemma nth_new (h : store) (d : DataFrame) :
  nth (List.length h) (h ++ [d]) no_frame = d.
Proof. rewrite app_nth2 by lia. now rewrite Nat.sub_diag. Qed.

Lemma frame_eta (d : DataFrame) :
  {| columns := columns d; rows := rows d |} = d.
Proof. now destruct d. Qed.

Lemma getitem_known (h : store) (r : ref) (col : string) (i : nat) :
  index_of col (columns (nth r h no_frame)) = Some i ->
  getitem r col h = Ok (map (cell_at i) (rows (nth r h no_frame)), h).
Proof.
  intros Hi. unfold getitem, bind, deref, lift, get_column. now rewrite Hi.
Qed.

Lemma getitem_mask_eq (h : store) (r : ref) (mask : list bool) :
  getitem_mask r mask h
  = Ok (List.length h, h ++ [boolean_index (nth r h no_frame) mask]).
Proof. reflexivity. Qed.

Lemma copy_eq (h : store) (r : ref) :
  copy r h = Ok (List.length h, h ++ [nth r h no_frame]).
Proof. reflexivity. Qed.

Lemma isin_column (i : nat) (vals : list cell) (rws : list (list cell)) :
  isin (map (cell_at i) rws) vals
  = map (fun row => existsb (cell_eqb (cell_at i row)) vals) rws.
Proof. unfold isin. now rewrite map_map. Qed.

Local Abbreviation regular_body :=
  (fun '(col, selected_values) '(filtered_df, any_filter_applied) =>
     match selected_values with
     | [] => ret (filtered_df, any_filter_applied)
     | _ :: _ =>
         series <- getitem filtered_df col ;;
         filtered_df' <- getitem_mask filtered_df (isin series selected_values) ;;
         ret (filtered_df', true)
     end).

Lemma regular_loop (filters : list (string * list cell)) :
  forall (h : store) (r : ref) (any : bool),
    (r < List.length h)%nat ->
    regular_known (columns (nth r h no_frame)) filters ->
    exists r' ext,
      for_each filters regular_body (r, any) h
      = Ok ((r', any || existsb active_regular filters), h ++ ext)
      /\ (r' < List.length (h ++ ext))%nat
      /\ nth r' (h ++ ext) no_frame =
         {| columns := columns (nth r h no_frame);
            rows := filter (fun row =>
                              forallb (regular_pass (columns (nth r h no_frame)) row) filters)
                           (rows (nth r h no_frame)) |}.
Proof.
  induction filters as [|[col vals] rest IH]; intros h r any Hr Hk.
  - exists r, []. simpl. rewrite app_nil_r, orb_false_r.
    repeat split; [exact Hr|].
    rewrite filter_all, frame_eta; auto.
  - destruct vals as [|v vs].
    + destruct (IH h r any Hr) as (r' & ext & E & Hr' & Hd).
      { intros f Hf. apply Hk. now right. }
      exists r', ext. simpl. unfold bind at 1. simpl. 
      repeat split; [exact E|exact Hr'|exact Hd].
    + destruct (index_of_In col (columns (nth r h no_frame))) as [i Hi].
      { apply (Hk (col, v :: vs)); [now left|reflexivity]. }
      set (d := nth r h no_frame) in *.
      set (d1 := boolean_index d (isin (map (cell_at i) (rows d)) (v :: vs))).
      destruct (IH (h ++ [d1]) (List.length h) true) as (r' & ext & E & Hr' & Hd).
      { rewrite length_app. simpl. lia. }
      { rewrite nth_new. intros f Hf. apply Hk. now right. }
      rewrite nth_new in Hd.
      exists r', (d1 :: ext).
      replace (h ++ d1 :: ext) with ((h ++ [d1]) ++ ext)
        by (now rewrite <- app_assoc).
      repeat split; [|exact Hr'|].
      * cbn [for_each]. unfold bind at 1. unfold bind at 1.
        rewrite (getitem_known h r col i Hi).
        unfold bind at 1. rewrite getitem_mask_eq. fold d. fold d1.
        unfold ret at 1. rewrite E. now rewrite orb_true_r.
      * rewrite Hd. unfold d1. simpl. f_equal.
        rewrite isin_column, select_map, filter_filter.
        apply filter_ext. intros row. unfold regular_pass at 2. simpl.
        fold d. now rewrite Hi.
Qed.

Lemma map_result_inv {A B : Type} (f : A -> result B) (g : A -> B)
    (xs : list A) :
  (forall x y, f x = Ok y -> y = g x) ->
  forall ys, map_result f xs = Ok ys -> ys = map g xs.
Proof.
  intros H. induction xs as [|x xs IH]; cbn [map_result map]; intros ys E.
  - now injection E as <-.
  - destruct (f x) as [y|e] eqn:Ex; cbn [rbind] in E; [|discriminate].
    destruct (map_result f xs) as [ys'|e] eqn:Exs; cbn [rbind] in E;
      [|discriminate].
    injection E as <-. now rewrite (H x y Ex), (IH ys').
Qed.

Lemma create_percentage_mask_known (h : store) (r : ref) (col : string)
    (value : Z) (i : nat) :
  index_of col (columns (nth r h no_frame)) = Some i ->
  forallb (fun row => short_runs (cell_at i row)) (rows (nth r h no_frame))
  = true ->
  create_percentage_mask r col value h
  = Ok (map (fun row => negb (isna (cell_at i row))
                        && in_range value (cell_at i row))
            (rows (nth r h no_frame)), h).
Proof.
  intros Hi Hshort. unfold create_percentage_mask, bind, deref, lift.
  rewrite (map_result_ok _
             (fun row => negb (isna (cell_at i row))
                         && in_range value (cell_at i row))); [reflexivity|].
  intros row Hrow. unfold row_get. rewrite Hi. simpl.
  destruct (isna (cell_at i row)); simpl; [reflexivity|].
  apply is_in_percentage_range_short.
  rewrite forallb_forall in Hshort. now apply Hshort.
Qed.

(** What [create_percentage_mask] has computed when it returns. *)
Lemma create_percentage_mask_returned (h h1 : store) (r : ref) (col : string)
    (value : Z) (mask : list bool) :
  create_percentage_mask r col value h = Ok (mask, h1) ->
  h1 = h
  /\ mask = map (fun row =>
                   match index_of col (columns (nth r h no_frame)) with
                   | Some i => negb (isna (cell_at i row))
                               && in_range value (cell_at i row)
                   | None => false
                   end)
                (rows (nth r h no_frame)).
Proof.
  unfold create_percentage_mask, bind, deref, lift.
  destruct (map_result _ (rows (nth r h no_frame))) as [m|e] eqn:E;
    [|discriminate].
  intros H. injection H as <- <-. split; [reflexivity|].
  revert E. apply map_result_inv. intros row y. unfold row_get.
  destruct (index_of col (columns (nth r h no_frame))) as [i|];
    cbn [rbind]; [|discriminate].
  destruct (isna (cell_at i row)); cbn [negb andb].
  - intros H. now injection H as <-.
  - intros H. unfold in_range. now rewrite H.
Qed.

Lemma slider_cells_short_filter (d : DataFrame) (slider_filters : list (string * Z))
    (keep : list cell -> bool) :
  slider_cells_short d slider_filters = true ->
  slider_cells_short
    {| columns := columns d; rows := filter keep (rows d) |} slider_filters
  = true.
Proof.
  unfold slider_cells_short. cbn [columns rows]. intros H.
  rewrite forallb_forall in *. intros g Hg. specialize (H g Hg).
  destruct (negb (active_slider g)); [reflexivity|]. cbn [orb] in *.
  destruct (index_of (fst g) (columns d)); [|reflexivity].
  rewrite forallb_forall in *. intros row Hrow. apply H.
  now apply filter_In in Hrow.
Qed.


Lemma slider_cells_short_tail (d : DataFrame) (f : string * Z)
    (rest : list (string * Z)) (keep : list cell -> bool) :
  slider_cells_short d (f :: rest) = true ->
  slider_cells_short
    {| columns := columns d; rows := filter keep (rows d) |} rest = true.
Proof.
  unfold slider_cells_short. cbn [forallb columns rows].
  intros H. apply andb_true_iff in H as [_ H].
  rewrite forallb_forall in *. intros g Hg. specialize (H g Hg).
  destruct (negb (active_slider g)); [reflexivity|]. cbn [orb] in *.
  destruct (index_of (fst g) (columns d)); [|reflexivity].
  rewrite forallb_forall in *. intros row Hrow. apply H.
  now apply filter_In in Hrow.
Qed.

Local Abbreviation slider_body :=
  (fun '(col, selected_value) '(filtered_df, any_filter_applied) =>
     if selected_value =? 50 then ret (filtered_df, any_filter_applied)
     else
       mask <- create_percentage_mask filtered_df col selected_value ;;
       filtered_df' <- getitem_mask filtered_df mask ;;
       ret (filtered_df', true)).

Lemma slider_loop (slider_filters : list (string * Z)) :
  forall (h : store) (r : ref) (any : bool),
    (r < List.length h)%nat ->
    slider_known (columns (nth r h no_frame)) slider_filters ->
    slider_cells_short (nth r h no_frame) slider_filters = true ->
    exists r' ext,
      for_each slider_filters slider_body (r, any) h
      = Ok ((r', any || existsb active_slider slider_filters), h ++ ext)
      /\ (r' < List.length (h ++ ext))%nat
      /\ nth r' (h ++ ext) no_frame =
         {| columns := columns (nth r h no_frame);
            rows := filter (fun row =>
                              forallb (slider_pass (columns (nth r h no_frame)) row)
                                      slider_filters)
                           (rows (nth r h no_frame)) |}.
Proof.
  induction slider_filters as [|[col q] rest IH]; intros h r any Hr Hk Hshort.
  - exists r, []. simpl. rewrite app_nil_r, orb_false_r.
    repeat split; [exact Hr|].
    rewrite filter_all, frame_eta; auto.
  - destruct (q =? 50) eqn:Hq.
    + destruct (IH h r any Hr) as (r' & ext & E & Hr' & Hd).
      { intros f Hf. apply Hk. now right. }
      { unfold slider_cells_short in *. cbn [forallb] in Hshort.
        now apply andb_true_iff in Hshort as [_ Hshort]. }
      exists r', ext. cbn [for_each]. unfold bind at 1. rewrite Hq.
      unfold ret at 1. cbn [existsb]. unfold active_slider at 1. simpl.
      rewrite Hq. simpl.
      repeat split; [exact E|exact Hr'|].
      rewrite Hd. f_equal. apply filter_ext. intros row.
      unfold slider_pass at 2, active_slider. simpl. now rewrite Hq.
    + destruct (index_of_In col (columns (nth r h no_frame))) as [i Hi].
      { apply (Hk (col, q)); [now left|]. unfold active_slider. simpl.
        now rewrite Hq. }
      assert (Hcol : forallb (fun row => short_runs (cell_at i row))
                             (rows (nth r h no_frame)) = true).
      { unfold slider_cells_short in Hshort. cbn [forallb] in Hshort.
        apply andb_true_iff in Hshort as [Hshort _].
        unfold active_slider in Hshort. cbn [fst snd] in Hshort.
        rewrite Hq, Hi in Hshort. exact Hshort. }
      set (d := nth r h no_frame) in *.
      set (d1 := boolean_index d
                   (map (fun row => negb (isna (cell_at i row))
                                    && in_range q (cell_at i row)) (rows d))).
      destruct (IH (h ++ [d1]) (List.length h) true) as (r' & ext & E & Hr' & Hd).
      { rewrite length_app. simpl. lia. }
      { rewrite nth_new. intros f Hf. apply Hk. now right. }
      { rewrite nth_new. unfold d1, boolean_index. rewrite select_map.
        now apply (slider_cells_short_tail d (col, q)). }
      rewrite nth_new in Hd.
      exists r', (d1 :: ext).
      replace (h ++ d1 :: ext) with ((h ++ [d1]) ++ ext)
        by (now rewrite <- app_assoc).
      repeat split; [|exact Hr'|].
      * cbn [for_each]. unfold bind at 1. rewrite Hq. unfold bind at 1.
        rewrite (create_percentage_mask_known h r col q i Hi Hcol).
        unfold bind at 1. rewrite getitem_mask_eq. fold d. fold d1.
        unfold ret at 1. rewrite E. cbn [existsb].
        unfold active_slider at 2. simpl. rewrite Hq. simpl.
        now rewrite orb_true_r.
      * rewrite Hd. unfold d1. simpl. f_equal.
        rewrite select_map, filter_filter.
        apply filter_ext. intros row. unfold slider_pass at 2, active_slider.
        simpl. fold d. now rewrite Hi, Hq.
Qed.

(** The whole of [apply_filters] on a frame that has the columns of the
    active predicates and whose cells under the active sliders have no
    run of digits longer than [int] converts. *)
Lemma apply_filters_runs (h : store) (df : ref)
    (filters : list (string * list cell)) (slider_filters : list (string * Z)) :
  regular_known (columns (nth df h no_frame)) filters ->
  slider_known (columns (nth df h no_frame)) slider_filters ->
  slider_cells_short (nth df h no_frame) slider_filters = true ->
  exists r' ext,
    apply_filters df filters slider_filters h
    = Ok ((r', existsb active_regular filters
               || existsb active_slider slider_filters), h ++ ext)
    /\ (r' < List.length (h ++ ext))%nat
    /\ nth r' (h ++ ext) no_frame =
       {| columns := columns (nth df h no_frame);
          rows := filter (row_passes (columns (nth df h no_frame))
                                     filters slider_filters)
                         (rows (nth df h no_frame)) |}.
Proof.
  intros Hreg Hsl Hshort. set (d := nth df h no_frame) in *.
  destruct (regular_loop filters (h ++ [d]) (List.length h) false)
    as (r1 & ext1 & E1 & Hr1 & Hd1).
  { rewrite length_app. simpl. lia. }
  { now rewrite nth_new. }
  rewrite nth_new in Hd1.
  destruct (slider_loop slider_filters ((h ++ [d]) ++ ext1) r1
              (false || existsb active_regular filters) Hr1)
    as (r2 & ext2 & E2 & Hr2 & Hd2).
  { now rewrite Hd1. }
  { rewrite Hd1. now apply slider_cells_short_filter. }
  rewrite Hd1 in Hd2. simpl in Hd2, E2.
  exists r2, (d :: ext1 ++ ext2).
  replace (h ++ d :: ext1 ++ ext2) with (((h ++ [d]) ++ ext1) ++ ext2)
    by (now rewrite <- !app_assoc).
  repeat split; [|exact Hr2|].
  - unfold apply_filters. unfold bind at 1. rewrite copy_eq. fold d.
    unfold bind at 1. rewrite E1. exact E2.
  - rewrite Hd2. f_equal. rewrite filter_filter. reflexivity.
Qed.

(** The two loops and the whole of [apply_filters], read from a run that
    has returned. *)
Lemma regular_loop_returned (filters : list (string * list cell)) :
  forall (h h' : store) (r r' : ref) (any any' : bool),
    (r < List.length h)%nat ->
    for_each filters regular_body (r, any) h = Ok ((r', any'), h') ->
    (r' < List.length h')%nat
    /\ any' = any || existsb active_regular filters
    /\ nth r' h' no_frame =
       {| columns := columns (nth r h no_frame);
          rows := filter (fun row =>
                            forallb (regular_pass (columns (nth r h no_frame)) row) filters)
                         (rows (nth r h no_frame)) |}.
Proof.
  induction filters as [|[col vals] rest IH]; intros h h' r r' any any' Hr E.
  - cbn [for_each] in E. unfold ret in E. injection E as <- <- <-.
    simpl. rewrite orb_false_r, filter_all, frame_eta; auto.
  - cbn [for_each] in E. unfold bind at 1 in E. destruct vals as [|v vs].
    + unfold ret at 1 in E.
      destruct (IH _ _ _ _ _ _ Hr E) as (Hr' & Hany & Hd).
      repeat split; [exact Hr'|exact Hany|exact Hd].
    + unfold bind at 1 in E.
      destruct (index_of col (columns (nth r h no_frame))) as [i|] eqn:Hi.
      * rewrite (getitem_known h r col i Hi) in E.
        unfold bind at 1 in E. rewrite getitem_mask_eq in E.
        unfold ret at 1 in E.
        set (d := nth r h no_frame) in *.
        set (d1 := boolean_index d (isin (map (cell_at i) (rows d)) (v :: vs))) in *.
        apply IH in E; [|rewrite length_app; simpl; lia].
        rewrite nth_new in E. destruct E as (Hr' & Hany & Hd).
        repeat split; [exact Hr'|rewrite Hany; simpl; now rewrite orb_true_r|].
        rewrite Hd. unfold d1. simpl. f_equal.
        rewrite isin_column, select_map, filter_filter.
        apply filter_ext. intros row. unfold regular_pass at 2. simpl.
        now rewrite Hi.
      * unfold getitem, bind, deref, lift, get_column in E.
        rewrite Hi in E. discriminate.
Qed.

Lemma slider_loop_returned (slider_filters : list (string * Z)) :
  forall (h h' : store) (r r' : ref) (any any' : bool),
    (r < List.length h)%nat ->
    for_each slider_filters slider_body (r, any) h = Ok ((r', any'), h') ->
    (r' < List.length h')%nat
    /\ any' = any || existsb active_slider slider_filters
    /\ nth r' h' no_frame =
       {| columns := columns (nth r h no_frame);
          rows := filter (fun row =>
                            forallb (slider_pass (columns (nth r h no_frame)) row)
                                    slider_filters)
                         (rows (nth r h no_frame)) |}.
Proof.
  induction slider_filters as [|[col q] rest IH];
    intros h h' r r' any any' Hr E.
  - cbn [for_each] in E. unfold ret in E. injection E as <- <- <-.
    simpl. rewrite orb_false_r, filter_all, frame_eta; auto.
  - cbn [for_each] in E. unfold bind at 1 in E.
    destruct (q =? 50) eqn:Hq.
    + unfold ret at 1 in E.
      destruct (IH _ _ _ _ _ _ Hr E) as (Hr' & Hany & Hd).
      repeat split; [exact Hr'| |].
      * rewrite Hany. cbn [existsb]. unfold active_slider at 2. simpl.
        now rewrite Hq.
      * rewrite Hd. f_equal. apply filter_ext. intros row.
        unfold slider_pass at 2, active_slider. simpl. now rewrite Hq.
    + unfold bind at 1 in E.
      destruct (create_percentage_mask r col q h) as [[mask h1]|e] eqn:Em;
        [|discriminate].
      apply create_percentage_mask_returned in Em as [-> ->].
      unfold bind at 1 in E. rewrite getitem_mask_eq in E.
      unfold ret at 1 in E.
      set (d := nth r h no_frame) in *.
      apply IH in E; [|rewrite length_app; simpl; lia].
      rewrite nth_new in E. destruct E as (Hr' & Hany & Hd).
      repeat split; [exact Hr'| |].
      * rewrite Hany. cbn [existsb]. unfold active_slider at 2. simpl.
        rewrite Hq. simpl. now rewrite orb_true_r.
      * rewrite Hd. simpl. f_equal.
        rewrite select_map, filter_filter.
        apply filter_ext. intros row. unfold slider_pass at 2, active_slider.
        simpl. now rewrite Hq.
Qed.

Lemma apply_filters_returned (h h' : store) (df out : ref) (any : bool)
    (filters : list (string * list cell)) (slider_filters : list (string * Z)) :
  apply_filters df filters slider_filters h = Ok ((out, any), h') ->
  (out < List.length h')%nat
  /\ any = existsb active_regular filters
           || existsb active_slider slider_filters
  /\ nth out h' no_frame =
     {| columns := columns (nth df h no_frame);
        rows := filter (row_passes (columns (nth df h no_frame))
                                   filters slider_filters)
                       (rows (nth df h no_frame)) |}.
Proof.
  intros E. unfold apply_filters in E. unfold bind at 1 in E.
  rewrite copy_eq in E. unfold bind at 1 in E.
  set (d := nth df h no_frame) in *.
  match type of E with
  | match ?m with _ => _ end = _ =>
      destruct m as [[[r1 any1] h1]|e] eqn:E1; [|discriminate]
  end.
  apply regular_loop_returned in E1; [|rewrite length_app; simpl; lia].
  rewrite nth_new in E1. destruct E1 as (Hr1 & Hany1 & Hd1).
  apply slider_loop_returned in E; [|exact Hr1].
  rewrite Hd1 in E. cbn [columns rows] in E. destruct E as (Hr2 & Hany2 & Hd2).
  repeat split; [exact Hr2|now rewrite Hany2, Hany1|].
  rewrite Hd2. f_equal. rewrite filter_filter. reflexivity.
Qed.





(** *** Computations that only add objects *)

Lemma extends_ret {A : Type} (a : A) : extends (ret a).
Proof. intros h a' h' E. injection E as _ <-. exists []. now rewrite app_nil_r. Qed.

Lemma extends_lift {A : Type} (r : result A) : extends (lift r).
Proof.
  intros h a h' E. unfold lift in E. destruct r; [|discriminate].
  injection E as _ <-. exists []. now rewrite app_nil_r.
Qed.

Lemma extends_deref (r : ref) : extends (deref r).
Proof. intros h a h' E. injection E as _ <-. exists []. now rewrite app_nil_r. Qed.

Lemma extends_alloc (d : DataFrame) : extends (alloc d).
Proof. intros h a h' E. injection E as _ <-. now exists [d]. Qed.

Lemma extends_bind {A B : Type} (m : M A) (k : A -> M B) :
  extends m -> (forall a, extends (k a)) -> extends (bind m k).
Proof.
  intros Hm Hk h b h' E. unfold bind in E.
  destruct (m h) as [[a h1]|e] eqn:E1; [|discriminate].
  destruct (Hm _ _ _ E1) as [ext1 ->].
  destruct (Hk a _ _ _ E) as [ext2 ->].
  exists (ext1 ++ ext2). now rewrite app_assoc.
Qed.

Lemma extends_for_each {A S : Type} (xs : list A) (body : A -> S -> M S) :
  (forall x s, extends (body x s)) -> forall s, extends (for_each xs body s).
Proof.
  intros Hb. induction xs as [|x xs IH]; intros s; simpl.
  - apply extends_ret.
  - apply extends_bind; [apply Hb | exact IH].
Qed.

Create HintDb frames.

#[local] Hint Resolve extends_ret extends_lift extends_deref extends_alloc : frames.

Lemma extends_copy (df : ref) : extends (copy df).
Proof. apply extends_bind; auto with frames. Qed.

Lemma extends_getitem (df : ref) (col : string) : extends (getitem df col).
Proof. apply extends_bind; auto with frames. Qed.

Lemma extends_getitem_mask (df : ref) (mask : list bool) :
  extends (getitem_mask df mask).
Proof. apply extends_bind; auto with frames. Qed.

Lemma extends_create_percentage_mask (df : ref) (col : string) (value : Z) :
  extends (create_percentage_mask df col value).
Proof. apply extends_bind; auto with frames. Qed.

#[local] Hint Resolve extends_copy extends_getitem extends_getitem_mask
  extends_create_percentage_mask : frames.

Lemma extends_apply_filters (df : ref) (filters : list (string * list cell))
    (slider_filters : list (string * Z)) :
  extends (apply_filters df filters slider_filters).
Proof.
  unfold apply_filters.
  apply extends_bind; [auto with frames|]. intros r.
  apply extends_bind.
  - apply extends_for_each. intros [col vals] [fdf any].
    destruct vals; [auto with frames|].
    repeat (apply extends_bind; [auto with frames|intros ?]).
    auto with frames.
  - intros st. apply extends_for_each. intros [col q] [fdf any].
    destruct (q =? 50); [auto with frames|].
    repeat (apply extends_bind; [auto with frames|intros ?]).
    auto with frames.
Qed.

Lemma extends_apply_exercise_filters (df : ref)
    (filters : list (string * list cell)) :
  extends (apply_exercise_filters df filters).
Proof.
  unfold apply_exercise_filters.
  apply extends_bind; [auto with frames|]. intros r.
  apply extends_for_each. intros [col vals] fdf.
  destruct vals; [auto with frames|].
  apply extends_bind; auto with frames.
Qed.

(** What [extends] is for: the objects of the store before the run read
    the same after it. *)
Lemma extends_frame {A : Type} (m : M A) (h h' : store) (a : A) (r : ref) :
  extends m -> m h = Ok (a, h') -> (r < List.length h)%nat ->
  nth r h' no_frame = nth r h no_frame.
Proof.
  intros Hm E Hr. destruct (Hm _ _ _ E) as [ext ->]. now apply app_nth1.
Qed.

(** *** Patterns of ordinary characters *)

Lemma special_backslash : is_special "\" = true.
Proof. reflexivity. Qed.

Lemma special_dot : is_special "." = true.
Proof. reflexivity. Qed.

Lemma sre_parse_plain (s : string) :
  plain s = true -> sre_parse s = Ok (literal s).
Proof.
  induction s as [|c s IH]; simpl; [reflexivity|].
  intros H. apply andb_true_iff in H as [Hc Hs].
  apply negb_true_iff in Hc.
  destruct (Ascii.eqb c ".") eqn:E1.
  { apply Ascii.eqb_eq in E1. subst c. now rewrite special_dot in Hc. }
  destruct (Ascii.eqb c "\") eqn:E2.
  { apply Ascii.eqb_eq in E2. subst c. now rewrite special_backslash in Hc. }
  rewrite Hc, (IH Hs). reflexivity.
Qed.

Lemma match_here_literal (l s : string) :
  match_here (literal l) s = true <-> exists post, s = (l ++ post)%string.
Proof.
  revert s. induction l as [|c l IH]; intros s; simpl.
  - split; [intros _; now exists s | reflexivity].
  - destruct s as [|x s].
    + split; [discriminate | intros [post H]; discriminate].
    + rewrite andb_true_iff, IH. split.
      * intros [Hc [post ->]]. apply Ascii.eqb_eq in Hc. subst x. now exists post.
      * intros [post H]. injection H as -> ->. split; [apply Ascii.eqb_refl|now exists post].
Qed.

Lemma re_search_spec (p : list re_atom) (s : string) :
  re_search p s = true
  <-> exists pre rest, s = (pre ++ rest)%string /\ match_here p rest = true.
Proof.
  induction s as [|c s IH].
  - simpl. rewrite orb_false_r. split.
    + intros H. now exists EmptyString, EmptyString.
    + intros (pre & rest & E & H). destruct pre; [|discriminate].
      simpl in E. now subst rest.
  - cbn [re_search]. rewrite orb_true_iff, IH. split.
    + intros [H|(pre & rest & -> & H)].
      * now exists EmptyString, (String c s).
      * now exists (String c pre), rest.
    + intros (pre & rest & E & H). destruct pre as [|x pre].
      * left. simpl in E. now subst rest.
      * right. injection E as -> ->. now exists pre, rest.
Qed.

Lemma re_search_literal (l s : string) :
  re_search (literal l) s = true <-> contains_substring s l.
Proof.
  rewrite re_search_spec. unfold contains_substring. split.
  - intros (pre & rest & -> & H). apply match_here_literal in H as [post ->].
    now exists pre, post.
  - intros (pre & post & ->). exists pre, (l ++ post)%string. split; [reflexivity|].
    apply match_here_literal. now exists post.
Qed.

Lemma label_hits_plain (label text : string) :
  plain label = true ->
  (label_hits label text = true <-> contains_substring text label).
Proof.
  intros H. unfold label_hits. rewrite (sre_parse_plain _ H).
  apply re_search_literal.
Qed.

Lemma plain_app (s t : string) :
  plain (s ++ t)%string = plain s && plain t.
Proof.
  induction s as [|c s IH]; simpl; [reflexivity|].
  now rewrite IH, andb_assoc.
Qed.

Lemma plain_substring (text label : string) :
  contains_substring text label -> plain text = true -> plain label = true.
Proof.
  intros (pre & post & ->) H. rewrite !plain_app in H.
  apply andb_true_iff in H as [_ H]. now apply andb_true_iff in H as [H _].
Qed.

Lemma compiles_plain (label : string) : plain label = true -> compiles label.
Proof. intros H. exists (literal label). now apply sre_parse_plain. Qed.

(** *** In-place updates *)

Lemma cell_at_replace_same (i : nat) (v : cell) (row : list cell) :
  cell_at i (replace_nth i v row) = v.
Proof.
  unfold cell_at. revert row.
  induction i as [|i IH]; intros [|x row]; simpl; auto.
Qed.

Lemma cell_at_replace_other (i j : nat) (v : cell) (row : list cell) :
  i <> j -> cell_at j (replace_nth i v row) = cell_at j row.
Proof.
  unfold cell_at. revert j row.
  induction i as [|i IH]; intros [|j] [|x row] H; simpl; try congruence.
  - now destruct j.
  - rewrite IH by congruence. now destruct j.
  - apply IH. congruence.
Qed.

Lemma assign_cells_map (i : nat) (f : list cell -> cell) (rws : list (list cell)) :
  assign_cells i (map f rws) rws = map (fun row => replace_nth i (f row) row) rws.
Proof. induction rws as [|row rws IH]; simpl; [reflexivity|now rewrite IH]. Qed.

Lemma cell_at_stringify (i j : nat) (row : list cell) :
  cell_at j (stringify i row)
  = if Nat.eqb i j then StrV (py_str (cell_at j row)) else cell_at j row.
Proof.
  unfold stringify. destruct (Nat.eqb i j) eqn:E.
  - apply Nat.eqb_eq in E. subst j. apply cell_at_replace_same.
  - apply Nat.eqb_neq in E. now apply cell_at_replace_other.
Qed.

Lemma written_text (P : nat -> bool) (g : list cell -> list cell) :
  written P g ->
  forall row j, py_str (cell_at j (g row)) = py_str (cell_at j row).
Proof. intros H row j. rewrite H. now destruct (P j). Qed.

Lemma written_stringify (P : nat -> bool) (g : list cell -> list cell) (i : nat) :
  written P g ->
  written (fun j => P j || Nat.eqb i j) (fun row => stringify i (g row)).
Proof.
  intros H row j. rewrite cell_at_stringify.
  destruct (Nat.eqb i j) eqn:E.
  - rewrite orb_true_r. now rewrite (written_text P g H).
  - rewrite orb_false_r. apply H.
Qed.

Lemma written_ext (P Q : nat -> bool) (g : list cell -> list cell) :
  (forall j, P j = Q j) -> written P g -> written Q g.
Proof. intros E H row j. rewrite <- E. apply H. Qed.

Lemma update_length (r : ref) (d : DataFrame) (h : store) :
  List.length (update r d h) = List.length h.
Proof.
  revert r. induction h as [|x h IH]; intros [|r]; simpl; auto.
Qed.

Lemma nth_update_same (r : ref) (d : DataFrame) (h : store) :
  (r < List.length h)%nat -> nth r (update r d h) no_frame = d.
Proof.
  revert r. induction h as [|x h IH]; intros [|r] H; simpl in *; try lia; auto.
  apply IH. lia.
Qed.

Lemma nth_update_other (r r' : ref) (d : DataFrame) (h : store) :
  r <> r' -> nth r' (update r d h) no_frame = nth r' h no_frame.
Proof.
  revert r r'. induction h as [|x h IH]; intros [|r] [|r'] H; simpl; try congruence.
  apply IH. congruence.
Qed.

Lemma update_update (r : ref) (d d' : DataFrame) (h : store) :
  update r d' (update r d h) = update r d' h.
Proof.
  revert r. induction h as [|x h IH]; intros [|r]; simpl; auto.
  now rewrite IH.
Qed.

Lemma update_nth (r : ref) (h : store) :
  update r (nth r h no_frame) h = h.
Proof.
  revert r. induction h as [|x h IH]; intros [|r]; simpl; auto.
  now rewrite IH.
Qed.

Lemma mask_or_map {A : Type} (f g : A -> bool) (xs : list A) :
  mask_or (map f xs) (map g xs) = map (fun x => f x || g x) xs.
Proof. induction xs as [|x xs IH]; simpl; [reflexivity|now rewrite IH]. Qed.

Lemma setitem_known (h : store) (df : ref) (col : string) (i : nat)
    (f : list cell -> cell) :
  index_of col (columns (nth df h no_frame)) = Some i ->
  setitem df col (map f (rows (nth df h no_frame))) h
  = Ok (tt, update df
              {| columns := columns (nth df h no_frame);
                 rows := map (fun row => replace_nth i (f row) row)
                             (rows (nth df h no_frame)) |} h).
Proof.
  intros Hi. unfold setitem, bind, deref, overwrite, with_column.
  now rewrite Hi, assign_cells_map.
Qed.

(** *** The loops of the cross-reference *)

Local Abbreviation label_body df_exercises col :=
  (fun (escenario : string) (exercise_mask : list bool) =>
     series <- getitem df_exercises col ;;
     hits <- lift (str_contains series escenario) ;;
     ret (mask_or exercise_mask hits)).

Lemma label_loop (df : ref) (col : string) (i : nat) (cols : list string)
    (rws : list (list cell)) (g : list cell -> list cell)
    (labels : list string) :
  forall (h : store) (f : list cell -> bool),
    nth df h no_frame = {| columns := cols; rows := map g rws |} ->
    index_of col cols = Some i ->
    (forall row, cell_at i (g row) = StrV (py_str (cell_at i row))) ->
    Forall compiles labels ->
    for_each labels (label_body df col) (map f rws) h
    = Ok (map (fun row =>
                 f row || existsb (fun l => label_hits l (py_str (cell_at i row)))
                                  labels) rws, h).
Proof.
  induction labels as [|l labels IH]; intros h f Hd Hi Hg Hc.
  - simpl. unfold ret. do 2 f_equal. apply map_ext. intros row.
    now rewrite orb_false_r.
  - inversion Hc as [|? ? [p Hp] Hc']; subst.
    cbn [for_each]. unfold bind at 1. unfold bind at 1.
    rewrite (getitem_known h df col i) by (now rewrite Hd).
    rewrite Hd. cbn [rows]. unfold bind at 1, lift, str_contains.
    rewrite Hp. cbn [rbind]. unfold ret at 1.
    rewrite !map_map, mask_or_map.
    rewrite (IH h _ Hd Hi Hg Hc'). do 2 f_equal. apply map_ext. intros row.
    rewrite Hg. cbn [existsb]. unfold label_hits at 2. rewrite Hp.
    now rewrite orb_assoc.
Qed.

Local Abbreviation column_body df_exercises selected_escenarios :=
  (fun (col : string) (exercise_mask : list bool) =>
     series <- getitem df_exercises col ;;
     setitem df_exercises col (astype_str series) ;;
     for_each selected_escenarios (label_body df_exercises col) exercise_mask).

Lemma column_loop (df : ref) (cols : list string) (rws : list (list cell))
    (labels : list string) (scols : list string) :
  Forall compiles labels ->
  (forall col, In col scols -> In col cols) ->
  forall (h : store) (P : nat -> bool) (g : list cell -> list cell)
         (f : list cell -> bool),
    (df < List.length h)%nat ->
    nth df h no_frame = {| columns := cols; rows := map g rws |} ->
    written P g ->
    exists g',
      written (fun j => P j || positions cols scols j) g'
      /\ for_each scols (column_body df labels) (map f rws) h
         = Ok (map (fun row => f row || row_hits cols scols labels row) rws,
               update df {| columns := cols; rows := map g' rws |} h).
Proof.
  intros Hc. induction scols as [|col scols IH]; intros Hin h P g f Hdf Hd Hg.
  - exists g. split.
    { eapply written_ext; [|exact Hg]. intros j. simpl. now rewrite orb_false_r. }
    simpl. unfold ret.
    rewrite <- Hd, update_nth. do 2 f_equal. apply map_ext. intros row.
    now rewrite orb_false_r.
  - destruct (index_of_In col cols) as [i Hi]; [apply Hin; now left|].
    set (d1 := {| columns := cols;
                  rows := map (fun row => stringify i (g row)) rws |}).
    pose proof (written_stringify P g i Hg) as Hg1.
    destruct (IH (fun c H => Hin c (or_intror H)) (update df d1 h)
                 (fun j => P j || Nat.eqb i j)
                 (fun row => stringify i (g row))
                 (fun row => f row
                             || existsb (fun l => label_hits l (py_str (cell_at i row)))
                                        labels))
      as (g' & Hg' & E).
    { now rewrite update_length. }
    { now rewrite nth_update_same. }
    { exact Hg1. }
    exists g'. split.
    { eapply written_ext; [|exact Hg']. intros j. unfold positions.
      cbn [existsb]. rewrite Hi. now rewrite orb_assoc. }
    cbn [for_each]. unfold bind at 1. unfold bind at 1.
    rewrite (getitem_known h df col i) by (now rewrite Hd).
    unfold bind at 1. unfold astype_str at 1. rewrite map_map.
    rewrite (setitem_known h df col i (fun row => StrV (py_str (cell_at i row))))
      by (now rewrite Hd).
    rewrite Hd. cbn [columns rows]. rewrite map_map.
    change (map (fun x => replace_nth i (StrV (py_str (cell_at i (g x)))) (g x)) rws)
      with (map (fun row => stringify i (g row)) rws).
    fold d1.
    rewrite (label_loop df col i cols rws (fun row => stringify i (g row)) labels
               (update df d1 h) f); auto.
    + rewrite E, update_update. do 2 f_equal. apply map_ext. intros row.
      unfold row_hits. cbn [existsb]. rewrite Hi. now rewrite orb_assoc.
    + now rewrite nth_update_same.
    + intros row. rewrite cell_at_stringify, Nat.eqb_refl.
      now rewrite (written_text P g Hg).
Qed.

Lemma repeat_false_map {A : Type} (xs : list A) :
  repeat false (List.length xs) = map (fun _ => false) xs.
Proof. induction xs as [|x xs IH]; simpl; [reflexivity|now rewrite IH]. Qed.

Lemma scenario_columns_known (d : DataFrame) (col : string) :
  In col (scenario_columns d) -> In col (columns d).
Proof. unfold scenario_columns. intros H. now apply filter_In in H. Qed.

(** The cross-reference on labels that compile: the mask it returns and
    what it leaves in the store.  The frame behind [df_exercises] is
    overwritten: the cells of its "Escenario:" columns are now texts. *)
Lemma exercise_mask_runs (h : store) (df : ref) (labels : list string) :
  (df < List.length h)%nat ->
  Forall compiles labels ->
  exists g,
    written (positions (columns (nth df h no_frame))
                       (scenario_columns (nth df h no_frame))) g
    /\ exercise_mask df labels h
       = Ok (map (row_hits (columns (nth df h no_frame))
                           (scenario_columns (nth df h no_frame)) labels)
                 (rows (nth df h no_frame)),
             update df {| columns := columns (nth df h no_frame);
                          rows := map g (rows (nth df h no_frame)) |} h).
Proof.
  intros Hdf Hc. set (d := nth df h no_frame).
  destruct (column_loop df (columns d) (rows d) labels (scenario_columns d) Hc
              (scenario_columns_known d) h (fun _ => false) (fun row => row)
              (fun _ => false) Hdf)
    as (g' & Hg' & E).
  { rewrite map_id. fold d. now destruct d. }
  { intros row j. reflexivity. }
  exists g'. split; [exact Hg'|].
  unfold exercise_mask, bind at 1, deref. fold d.
  rewrite repeat_false_map. exact E.
Qed.

Lemma row_hits_spec (cols scols labels : list string) (row : list cell) :
  row_hits cols scols labels row = true
  <-> exists col l c,
        In col scols /\ In l labels
        /\ row_get cols row col = Ok c
        /\ label_hits l (py_str c) = true.
Proof.
  unfold row_hits. rewrite existsb_exists. split.
  - intros (col & Hcol & H). unfold row_get.
    destruct (index_of col cols) as [i|] eqn:Hi; [|discriminate].
    apply existsb_exists in H as (l & Hl & H).
    exists col, l, (cell_at i row). rewrite Hi. repeat split; auto.
  - intros (col & l & c & Hcol & Hl & Hget & H). exists col. split; [exact Hcol|].
    unfold row_get in Hget. destruct (index_of col cols) as [i|]; [|discriminate].
    injection Hget as <-. apply existsb_exists. now exists l.
Qed.

(** X6. On labels made of ordinary characters the cross-reference is the
    substring test: a row is in the mask iff one of its cells in an
    "Escenario:" column, as text, contains one of the labels. *)
Lemma exercise_mask_plain_labels (h : store) (df : ref) (labels : list string) :
  (df < List.length h)%nat ->
  Forall (fun l => plain l = true) labels ->
  exists mask h',
    exercise_mask df labels h = Ok (mask, h')
    /\ List.length mask = List.length (rows (nth df h no_frame))
    /\ forall k row,
         nth_error (rows (nth df h no_frame)) k = Some row ->
         (nth_error mask k = Some true
          <-> exists col l c,
                In col (columns (nth df h no_frame))
                /\ prefix "Escenario:" col = true
                /\ In l labels
                /\ row_get (columns (nth df h no_frame)) row col = Ok c
                /\ contains_substring (py_str c) l).
Proof.
  intros Hdf Hp. set (d := nth df h no_frame).
  destruct (exercise_mask_runs h df labels Hdf) as (g & _ & E).
  { eapply Forall_impl; [|exact Hp]. intros l. apply compiles_plain. }
  fold d in E. eexists _, _. split; [exact E|]. split; [apply length_map|].
  intros k row Hk. rewrite (map_nth_error _ _ _ Hk). split.
  - intros H. injection H as H. apply row_hits_spec in H
      as (col & l & c & Hcol & Hl & Hget & H).
    apply filter_In in Hcol as [Hcol Hpre].
    exists col, l, c. repeat split; auto.
    apply label_hits_plain; [|exact H].
    rewrite Forall_forall in Hp. now apply Hp.
  - intros (col & l & c & Hcol & Hpre & Hl & Hget & H). f_equal.
    apply row_hits_spec. exists col, l, c. repeat split; auto.
    + apply filter_In. now split.
    + apply label_hits_plain; [|exact H].
      rewrite Forall_forall in Hp. now apply Hp.
Qed.

(** Without any "Escenario:" column the mask is all false. *)
Lemma exercise_mask_no_scenario_column (h : store) (df : ref)
    (labels : list string) :
  scenario_columns (nth df h no_frame) = [] ->
  exercise_mask df labels h
  = Ok (repeat false (List.length (rows (nth df h no_frame))), h).
Proof.
  intros H. unfold exercise_mask, bind, deref.
  unfold scenario_columns in H. now rewrite H.
Qed.

(** ** [apply_filters]: the predicates row by row *)

Lemma cell_eqb_eq (a b : cell) : cell_eqb a b = true <-> a = b.
Proof.
  destruct a as [|x|s], b as [|y|t]; simpl; split; try congruence; try reflexivity.
  - intros H. apply Z.eqb_eq in H. now subst.
  - intros H. injection H as ->. apply Z.eqb_refl.
  - intros H. apply String.eqb_eq in H. now subst.
  - intros H. injection H as ->. apply String.eqb_refl.
Qed.

Lemma existsb_cell_eqb (c : cell) (vals : list cell) :
  existsb (cell_eqb c) vals = true <-> In c vals.
Proof.
  rewrite existsb_exists. split.
  - intros (v & Hv & E). apply cell_eqb_eq in E. now subst.
  - intros H. exists c. split; [exact H|]. now apply cell_eqb_eq.
Qed.


Lemma regular_pass_spec (cols : list string) (row : list cell)
    (col : string) (vals : list cell) :
  regular_pass cols row (col, vals) = true
  <-> (vals <> [] -> exists c, row_get cols row col = Ok c /\ In c vals).
Proof.
  unfold regular_pass, active_regular, row_get. simpl.
  destruct vals as [|v vs]; simpl.
  - split; [intros _ H; now contradiction H | reflexivity].
  - destruct (index_of col cols) as [i|].
    + rewrite orb_true_iff. split.
      * intros H _. exists (cell_at i row). split; [reflexivity|].
        destruct H as [H|H].
        -- left. apply cell_eqb_eq in H. now subst.
        -- right. now apply existsb_cell_eqb.
      * intros H. destruct H as (c & Hc & Hin); [discriminate|].
        injection Hc as <-. destruct Hin as [<-|Hin].
        -- left. now apply cell_eqb_eq.
        -- right. now apply existsb_cell_eqb.
    + split; [discriminate|].
      intros H. destruct H as (c & Hc & _); discriminate.
Qed.



Lemma any_active_spec (filters : list (string * list cell))
    (slider_filters : list (string * Z)) :
  existsb active_regular filters || existsb active_slider slider_filters = true
  <-> some_active filters slider_filters.
Proof.
  unfold some_active. rewrite orb_true_iff, !existsb_exists. split.
  - intros [([col vals] & Hin & H)|([col q] & Hin & H)].
    + left. exists col, vals. split; [exact Hin|].
      intros ->. discriminate.
    + right. exists col, q. split; [exact Hin|].
      unfold active_slider in H. simpl in H.
      apply negb_true_iff, Z.eqb_neq in H. exact H.
  - intros [(col & vals & Hin & H)|(col & q & Hin & H)].
    + left. exists (col, vals). split; [exact Hin|].
      destruct vals; [now contradiction H | reflexivity].
    + right. exists (col, q). split; [exact Hin|].
      unfold active_slider. simpl. now apply negb_true_iff, Z.eqb_neq.
Qed.



Example apply_filters_demo :
  apply_filters O
    [("Ojo Dominante", [StrV "Derecho"; StrV "Ambos"]); ("Escenarios", [])]
    [("% Hemisferio Correspondiente al ojo (Natural)", 55)]
    [asymmetries_demo]
  = Ok ((3%nat, true),
        [asymmetries_demo;
         asymmetries_demo;
         {| columns := columns asymmetries_demo;
            rows := [[StrV "Derecho"; StrV "40% - 60%"; StrV "Lectura"];
                     [StrV "Derecho"; NaN; StrV "Memoria"];
                     [StrV "Derecho"; IntV 55; StrV "Dibujo"]] |};
         {| columns := columns asymmetries_demo;
            rows := [[StrV "Derecho"; StrV "40% - 60%"; StrV "Lectura"];
                     [StrV "Derecho"; IntV 55; StrV "Dibujo"]] |}]).
Proof. reflexivity. Qed.

(** A column that the frame does not have raises [KeyError], as
    [filtered_df[col]] does. *)
Example apply_filters_unknown_column :
  apply_filters O [("Mano", [StrV "Derecha"])] [] [asymmetries_demo]
  = Raise (KeyError "Mano").
Proof. reflexivity. Qed.

(** C4.  When every predicate is inert, [apply_filters] returns a frame
    equal to the input frame, with the flag [any_filter_applied] false. *)
Theorem apply_filters_all_inert (h : store) (df : ref)
    (filters : list (string * list cell)) (slider_filters : list (string * Z)) :
  all_inert filters slider_filters ->
  exists out h',
    apply_filters df filters slider_filters h = Ok ((out, false), h')
    /\ nth out h' no_frame = nth df h no_frame.
Proof.
  intros [Hreg Hsl].
  assert (Ereg : forall f, In f filters -> active_regular f = false).
  { intros [col vals] Hin. unfold active_regular. simpl.
    now rewrite (Hreg col vals Hin). }
  assert (Esl : forall f, In f slider_filters -> active_slider f = false).
  { intros [col q] Hin. unfold active_slider. simpl.
    rewrite (Hsl col q Hin). reflexivity. }
  destruct (apply_filters_runs h df filters slider_filters)
    as (out & ext & E & _ & Hd).
  { intros f Hin Hact. rewrite (Ereg f Hin) in Hact. discriminate. }
  { intros f Hin Hact. rewrite (Esl f Hin) in Hact. discriminate. }
  { unfold slider_cells_short. apply forallb_forall. intros f Hin.
    now rewrite (Esl f Hin). }
  assert (Hnone : existsb active_regular filters
                  || existsb active_slider slider_filters = false).
  { apply orb_false_iff. split.
    - apply not_true_iff_false. intros H.
      apply existsb_exists in H as (f & Hin & Hact).
      rewrite (Ereg f Hin) in Hact. discriminate.
    - apply not_true_iff_false. intros H.
      apply existsb_exists in H as (f & Hin & Hact).
      rewrite (Esl f Hin) in Hact. discriminate. }
  rewrite Hnone in E. exists out, (h ++ ext). split; [exact E|].
  rewrite Hd. clear Hd E.
  destruct (nth df h no_frame) as [cols rws]. cbn [columns rows]. f_equal.
  transitivity (filter (fun _ => true) rws); [|now apply filter_all].
  apply filter_ext_in. intros row _. unfold row_passes.
  apply andb_true_iff. split; apply forallb_forall.
  - intros f Hin. unfold regular_pass. now rewrite (Ereg f Hin).
  - intros f Hin. unfold slider_pass. now rewrite (Esl f Hin).
Qed.

Lemma apply_filters_all_inert_witness :
  all_inert [("Ojo Dominante", []); ("Escenarios", [])]
            [("% Hemisferio Correspondiente al ojo (Natural)", 50)]
  /\ exists out h',
       apply_filters O [("Ojo Dominante", []); ("Escenarios", [])]
         [("% Hemisferio Correspondiente al ojo (Natural)", 50)]
         [asymmetries_demo]
       = Ok ((out, false), h')
       /\ nth out h' no_frame = nth O [asymmetries_demo] no_frame.
Proof.
  assert (H : all_inert [("Ojo Dominante", []); ("Escenarios", [])]
                [("% Hemisferio Correspondiente al ojo (Natural)", 50)]).
  { split.
    - intros col vals [E|[E|[]]]; now inversion E.
    - intros col q [E|[]]; now inversion E. }
  split; [exact H|].
  exact (apply_filters_all_inert [asymmetries_demo] O _ _ H).
Defined.

(** C5.  Whenever [apply_filters] returns, the flag it returns is true
    iff some predicate is active: a categorical selection that is not
    empty or a slider whose value is not 50.  The rows play no part in it.
    And [apply_filters] does return on a frame that has the columns of the
    active predicates and, under the active sliders, no run of digits
    longer than [int] converts. *)
Theorem apply_filters_any_active (h : store) (df : ref)
    (filters : list (string * list cell)) (slider_filters : list (string * Z)) :
  (forall out any h',
     apply_filters df filters slider_filters h = Ok ((out, any), h') ->
     (any = true <-> some_active filters slider_filters))
  /\ (regular_known (columns (nth df h no_frame)) filters ->
      slider_known (columns (nth df h no_frame)) slider_filters ->
      slider_cells_short (nth df h no_frame) slider_filters = true ->
      exists out any h',
        apply_filters df filters slider_filters h = Ok ((out, any), h')).
Proof.
  split.
  - intros out any h' E.
    destruct (apply_filters_returned _ _ _ _ _ _ _ E) as (_ & -> & _).
    apply any_active_spec.
  - intros Hreg Hsl Hshort.
    destruct (apply_filters_runs h df filters slider_filters Hreg Hsl Hshort)
      as (out & ext & E & _ & _).
    eexists out, _, (h ++ ext). exact E.
Qed.

Lemma apply_filters_any_active_witness :
  regular_known (columns asymmetries_demo)
    [("Escenarios", [StrV "Lectura"; StrV "Calculo"; StrV "Memoria"; StrV "Dibujo"])]
  /\ slider_known (columns asymmetries_demo)
       [("% Hemisferio Correspondiente al ojo (Natural)", 50)]
  /\ slider_cells_short asymmetries_demo
       [("% Hemisferio Correspondiente al ojo (Natural)", 50)] = true
  /\ exists out any h',
       apply_filters O
         [("Escenarios", [StrV "Lectura"; StrV "Calculo"; StrV "Memoria"; StrV "Dibujo"])]
         [("% Hemisferio Correspondiente al ojo (Natural)", 50)]
         [asymmetries_demo]
       = Ok ((out, any), h')
       /\ (any = true
           <-> some_active
                 [("Escenarios", [StrV "Lectura"; StrV "Calculo"; StrV "Memoria"; StrV "Dibujo"])]
                 [("% Hemisferio Correspondiente al ojo (Natural)", 50)]).
Proof.
  assert (H1 : regular_known (columns asymmetries_demo)
                 [("Escenarios", [StrV "Lectura"; StrV "Calculo"; StrV "Memoria"; StrV "Dibujo"])]).
  { intros f [<-|[]] _; simpl; auto. }
  assert (H2 : slider_known (columns asymmetries_demo)
                 [("% Hemisferio Correspondiente al ojo (Natural)", 50)]).
  { intros f [<-|[]] H; discriminate H. }
  assert (H3 : slider_cells_short asymmetries_demo
                 [("% Hemisferio Correspondiente al ojo (Natural)", 50)] = true).
  { reflexivity. }
  split; [exact H1|]. split; [exact H2|]. split; [exact H3|].
  destruct (apply_filters_any_active [asymmetries_demo] O
              [("Escenarios", [StrV "Lectura"; StrV "Calculo"; StrV "Memoria"; StrV "Dibujo"])]
              [("% Hemisferio Correspondiente al ojo (Natural)", 50)])
    as [Hflag Hruns].
  destruct (Hruns H1 H2 H3) as (out & any & h' & E).
  exists out, any, h'. split; [exact E|]. exact (Hflag out any h' E).
Defined.

(** An active selection that removes no row still sets the flag. *)
Example apply_filters_active_without_removal :
  apply_filters O
    [("Escenarios", [StrV "Lectura"; StrV "Calculo"; StrV "Memoria"; StrV "Dibujo"])]
    [] [asymmetries_demo]
  = Ok ((2%nat, true), [asymmetries_demo; asymmetries_demo; asymmetries_demo]).
Proof. reflexivity. Qed.

(** ** The scenario cross-reference *)

Lemma index_of_known (col : string) (cols : list string) (i : nat) :
  index_of col cols = Some i -> In col cols.
Proof.
  revert i. induction cols as [|c cs IH]; simpl; intros i H; [discriminate|].
  destruct (String.eqb col c) eqn:E.
  - left. symmetry. now apply String.eqb_eq.
  - right. destruct (index_of col cs) as [j|]; [|discriminate]. now apply (IH j).
Qed.

Lemma positions_scenario (d : DataFrame) (col : string) (i : nat) :
  index_of col (columns d) = Some i ->
  prefix "Escenario:" col = true ->
  positions (columns d) (scenario_columns d) i = true.
Proof.
  intros Hi Hpre. unfold positions. apply existsb_exists. exists col. split.
  - apply filter_In. split; [now apply (index_of_known col _ i)|exact Hpre].
  - rewrite Hi. apply Nat.eqb_refl.
Qed.

(** A missing cell of an "Escenario:" column is written back as the
    text "nan" before the labels are searched; so, when the labels
    compile, a selected label that is a substring of "nan" puts every
    row with such a cell into the mask. *)
Lemma exercise_mask_nan_when_labels_compile (h : store) (df : ref)
    (labels : list string) (label col : string) (k : nat) (row : list cell) :
  (df < List.length h)%nat ->
  Forall compiles labels ->
  In label labels ->
  contains_substring "nan" label ->
  prefix "Escenario:" col = true ->
  nth_error (rows (nth df h no_frame)) k = Some row ->
  row_get (columns (nth df h no_frame)) row col = Ok NaN ->
  exists mask h' row',
    exercise_mask df labels h = Ok (mask, h')
    /\ nth_error (rows (nth df h' no_frame)) k = Some row'
    /\ row_get (columns (nth df h' no_frame)) row' col = Ok (StrV "nan")
    /\ nth_error mask k = Some true.
Proof.
  intros Hdf Hc Hl Hsub Hpre Hk Hget.
  destruct (exercise_mask_runs h df labels Hdf Hc) as (g & Hg & E).
  set (d := nth df h no_frame) in *.
  unfold row_get in Hget.
  destruct (index_of col (columns d)) as [i|] eqn:Hi; [|discriminate].
  injection Hget as Hcell.
  pose proof (positions_scenario d col i Hi Hpre) as HP.
  eexists _, _, (g row). split; [exact E|].
  rewrite nth_update_same by exact Hdf. cbn [columns rows].
  split; [now apply map_nth_error|]. split.
  - unfold row_get. rewrite Hi, Hg, HP, Hcell. reflexivity.
  - rewrite (map_nth_error _ _ _ Hk). f_equal.
    apply row_hits_spec. exists col, label, NaN. repeat split; auto.
    + apply filter_In. split; [now apply (index_of_known col _ i)|exact Hpre].
    + unfold row_get. now rewrite Hi, Hcell.
    + apply label_hits_plain; [|exact Hsub].
      now apply (plain_substring "nan").
Qed.


(** C1, at the label "1.5".  In row E2 of [exercises_demo] the cells of
    the two "Escenario:" columns read "nan" and "Nivel 125"; neither text
    contains "1.5".  [str.contains] takes the label for a pattern, its
    dot stands for any character, "125" matches and the row enters the
    mask. *)
Theorem exercise_mask_label_is_a_pattern :
  exercise_mask O ["1.5"] [exercises_demo]
  = Ok ([false; true; false],
        [{| columns := columns exercises_demo;
            rows := [[StrV "E1"; StrV "Lectura"; StrV "nan"; IntV 1];
                     [StrV "E2"; StrV "nan"; StrV "Nivel 125"; IntV 2];
                     [StrV "E3"; StrV "Calculo"; StrV "15"; IntV 1]] |}])
  /\ ~ contains_substring "nan" "1.5"
  /\ ~ contains_substring "Nivel 125" "1.5".
Proof.
  split; [reflexivity|].
  split; intros H; apply re_search_literal in H; discriminate H.
Qed.

(** The same call with the dot escaped searches the three characters. *)
Example exercise_mask_escaped_label :
  exercise_mask O ["1\.5"] [exercises_demo]
  = Ok ([false; false; false],
        [{| columns := columns exercises_demo;
            rows := [[StrV "E1"; StrV "Lectura"; StrV "nan"; IntV 1];
                     [StrV "E2"; StrV "nan"; StrV "Nivel 125"; IntV 2];
                     [StrV "E3"; StrV "Calculo"; StrV "15"; IntV 1]] |}]).
Proof. reflexivity. Qed.

(** ** What each step leaves in the store *)

(** [apply_filters] and [apply_exercise_filters] work on a copy: every
    frame of the store, the input among them, reads the same after the
    call. *)
Lemma apply_filters_keeps_input (h h' : store) (df r out : ref) (any : bool)
    (filters : list (string * list cell)) (slider_filters : list (string * Z)) :
  apply_filters df filters slider_filters h = Ok ((out, any), h') ->
  (r < List.length h)%nat ->
  nth r h' no_frame = nth r h no_frame.
Proof.
  intros E Hr.
  exact (extends_frame _ h h' _ r (extends_apply_filters df filters slider_filters) E Hr).
Qed.

Lemma apply_exercise_filters_keeps_input (h h' : store) (df r out : ref)
    (filters : list (string * list cell)) :
  apply_exercise_filters df filters h = Ok (out, h') ->
  (r < List.length h)%nat ->
  nth r h' no_frame = nth r h no_frame.
Proof.
  intros E Hr.
  exact (extends_frame _ h h' _ r (extends_apply_exercise_filters df filters) E Hr).
Qed.

(** X7. The cross-reference writes into its input: after it the frame behind
    [df_exercises] has a text in every cell of an "Escenario:" column,
    the other cells are as before, and no frame is added. *)
Lemma exercise_mask_writes_input (h : store) (df : ref) (labels : list string) :
  (df < List.length h)%nat ->
  Forall compiles labels ->
  exists mask h' g,
    exercise_mask df labels h = Ok (mask, h')
    /\ List.length h' = List.length h
    /\ (forall r, r <> df -> nth r h' no_frame = nth r h no_frame)
    /\ columns (nth df h' no_frame) = columns (nth df h no_frame)
    /\ rows (nth df h' no_frame) = map g (rows (nth df h no_frame))
    /\ written (positions (columns (nth df h no_frame))
                          (scenario_columns (nth df h no_frame))) g.
Proof.
  intros Hdf Hc.
  destruct (exercise_mask_runs h df labels Hdf Hc) as (g & Hg & E).
  eexists _, _, g. split; [exact E|].
  split; [apply update_length|].
  split; [intros r Hr; now apply nth_update_other|].
  rewrite nth_update_same by exact Hdf. cbn [columns rows]. auto.
Qed.

(** C2, at [exercises_demo] with the label "Lectura".  The frame passed
    to the cross-reference is not the same after it: the missing cells
    and the integer of its "Escenario:" columns have become the texts
    "nan" and "15". *)
Theorem exercise_mask_overwrites_input :
  exists mask h',
    exercise_mask O ["Lectura"] [exercises_demo] = Ok (mask, h')
    /\ nth O h' no_frame <> exercises_demo
    /\ rows (nth O h' no_frame)
       = [[StrV "E1"; StrV "Lectura"; StrV "nan"; IntV 1];
          [StrV "E2"; StrV "nan"; StrV "Nivel 125"; IntV 2];
          [StrV "E3"; StrV "Calculo"; StrV "15"; IntV 1]].
Proof.
  eexists _, _. split; [reflexivity|]. split; [|reflexivity].
  simpl. unfold exercises_demo. intros H. discriminate H.
Qed.

(** ** [main]: no scenario selected *)

(** C9.  With no scenario selected [main] shows the warning that asks for
    one and does nothing else: no frame is read, written or created.  The
    warning is not the one shown when the cross-reference keeps no row,
    and a selection that is not empty never ends in it. *)
Theorem main_scenarios_none_selected (h : store) (df_exercises : ref)
    (exercise_filters : list (string * list cell)) :
  main_scenarios df_exercises [] exercise_filters h
  = Ok (Warning no_scenario_selected, h)
  /\ no_scenario_selected <> no_exercise_found
  /\ forall selected_escenarios s h',
       selected_escenarios <> [] ->
       main_scenarios df_exercises selected_escenarios exercise_filters h
       = Ok (s, h') ->
       s <> Warning no_scenario_selected.
Proof.
  split; [reflexivity|]. split; [discriminate|].
  intros selected s h' Hne E. destruct selected as [|l ls]; [contradiction|].
  unfold main_scenarios, bind in E.
  destruct (exercise_mask df_exercises (l :: ls) h) as [[mask h1]|e];
    [|discriminate].
  unfold getitem_mask, bind, deref, alloc in E.
  rewrite nth_new in E.
  destruct (empty (boolean_index (nth df_exercises h1 no_frame) mask)).
  - cbn [negb] in E. unfold ret in E. injection E as <- _. discriminate.
  - cbn [negb] in E.
    destruct (apply_exercise_filters _ exercise_filters _) as [[final h2]|e];
      [|discriminate].
    unfold ret in E. injection E as <- _. discriminate.
Qed.

Lemma main_scenarios_none_selected_witness :
  ["Lectura"] <> []
  /\ main_scenarios O ["Lectura"] [("Filmina", [IntV 1])] [exercises_demo]
     = Ok (Dataframe 3%nat,
           [{| columns := columns exercises_demo;
               rows := [[StrV "E1"; StrV "Lectura"; StrV "nan"; IntV 1];
                        [StrV "E2"; StrV "nan"; StrV "Nivel 125"; IntV 2];
                        [StrV "E3"; StrV "Calculo"; StrV "15"; IntV 1]] |};
            {| columns := columns exercises_demo;
               rows := [[StrV "E1"; StrV "Lectura"; StrV "nan"; IntV 1]] |};
            {| columns := columns exercises_demo;
               rows := [[StrV "E1"; StrV "Lectura"; StrV "nan"; IntV 1]] |};
            {| columns := columns exercises_demo;
               rows := [[StrV "E1"; StrV "Lectura"; StrV "nan"; IntV 1]] |}])
  /\ Dataframe 3%nat <> Warning no_scenario_selected.
Proof.
  assert (Hne : ["Lectura"] <> []) by discriminate.
  assert (E : main_scenarios O ["Lectura"] [("Filmina", [IntV 1])] [exercises_demo]
              = Ok (Dataframe 3%nat,
           [{| columns := columns exercises_demo;
               rows := [[StrV "E1"; StrV "Lectura"; StrV "nan"; IntV 1];
                        [StrV "E2"; StrV "nan"; StrV "Nivel 125"; IntV 2];
                        [StrV "E3"; StrV "Calculo"; StrV "15"; IntV 1]] |};
            {| columns := columns exercises_demo;
               rows := [[StrV "E1"; StrV "Lectura"; StrV "nan"; IntV 1]] |};
            {| columns := columns exercises_demo;
               rows := [[StrV "E1"; StrV "Lectura"; StrV "nan"; IntV 1]] |};
            {| columns := columns exercises_demo;
               rows := [[StrV "E1"; StrV "Lectura"; StrV "nan"; IntV 1]] |}]))
    by reflexivity.
  split; [exact Hne|]. split; [exact E|].
  exact (proj2 (proj2 (main_scenarios_none_selected [exercises_demo] O
                         [("Filmina", [IntV 1])]))
           ["Lectura"] _ _ Hne E).
Defined.

(** A selection that matches no row ends in the other warning. *)
Example main_scenarios_no_match :
  main_scenarios O ["Geometria"] [] [exercises_demo]
  = Ok (Warning no_exercise_found,
        [{| columns := columns exercises_demo;
            rows := [[StrV "E1"; StrV "Lectura"; StrV "nan"; IntV 1];
                     [StrV "E2"; StrV "nan"; StrV "Nivel 125"; IntV 2];
                     [StrV "E3"; StrV "Calculo"; StrV "15"; IntV 1]] |};
         {| columns := columns exercises_demo; rows := [] |}]).
Proof. reflexivity. Qed.

(** ** More on the two filter functions *)

Lemma for_each_app {A S : Type} (xs ys : list A) (body : A -> S -> M S) (s : S)
    (h : store) :
  for_each (xs ++ ys) body s h
  = bind (for_each xs body s) (fun s' => for_each ys body s') h.
Proof.
  revert s h. induction xs as [|x xs IH]; intros s h; simpl.
  - reflexivity.
  - unfold bind. destruct (body x s h) as [[s1 h1]|e]; [|reflexivity].
    rewrite IH. reflexivity.
Qed.

Lemma index_of_unknown (col : string) (cols : list string) :
  ~ In col cols -> index_of col cols = None.
Proof.
  intros H. destruct (index_of col cols) as [i|] eqn:E; [|reflexivity].
  contradiction H. now apply (index_of_known col cols i).
Qed.

Lemma getitem_unknown (h : store) (r : ref) (col : string) :
  ~ In col (columns (nth r h no_frame)) ->
  getitem r col h = Raise (KeyError col).
Proof.
  intros H. unfold getitem, bind, deref, lift, get_column.
  now rewrite (index_of_unknown _ _ H).
Qed.

Local Abbreviation exercise_body :=
  (fun '(col, selected_values) filtered_df =>
     match selected_values with
     | [] => ret filtered_df
     | _ :: _ =>
         series <- getitem filtered_df col ;;
         getitem_mask filtered_df (isin series selected_values)
     end).

Lemma exercise_loop (filters : list (string * list cell)) :
  forall (h : store) (r : ref),
    (r < List.length h)%nat ->
    regular_known (columns (nth r h no_frame)) filters ->
    exists r' ext,
      for_each filters exercise_body r h = Ok (r', h ++ ext)
      /\ (r <= r' < List.length (h ++ ext))%nat
      /\ nth r' (h ++ ext) no_frame =
         {| columns := columns (nth r h no_frame);
            rows := filter (fun row =>
                              forallb (regular_pass (columns (nth r h no_frame)) row) filters)
                           (rows (nth r h no_frame)) |}.
Proof.
  induction filters as [|[col vals] rest IH]; intros h r Hr Hk.
  - exists r, []. simpl. rewrite app_nil_r.
    split; [reflexivity|]. split; [lia|].
    rewrite filter_all, frame_eta; auto.
  - destruct vals as [|v vs].
    + destruct (IH h r Hr) as (r' & ext & E & Hr' & Hd).
      { intros f Hf. apply Hk. now right. }
      exists r', ext. simpl. unfold bind at 1. simpl.
      split; [exact E|]. split; [exact Hr'|exact Hd].
    + destruct (index_of_In col (columns (nth r h no_frame))) as [i Hi].
      { apply (Hk (col, v :: vs)); [now left|reflexivity]. }
      set (d := nth r h no_frame) in *.
      set (d1 := boolean_index d (isin (map (cell_at i) (rows d)) (v :: vs))).
      destruct (IH (h ++ [d1]) (List.length h)) as (r' & ext & E & Hr' & Hd).
      { rewrite length_app. simpl. lia. }
      { rewrite nth_new. intros f Hf. apply Hk. now right. }
      rewrite nth_new in Hd.
      exists r', (d1 :: ext).
      replace (h ++ d1 :: ext) with ((h ++ [d1]) ++ ext)
        by (now rewrite <- app_assoc).
      split; [|split; [lia|]].
      * cbn [for_each]. unfold bind at 1. unfold bind at 1.
        rewrite (getitem_known h r col i Hi).
        rewrite getitem_mask_eq. fold d. fold d1. exact E.
      * rewrite Hd. unfold d1. simpl. f_equal.
        rewrite isin_column, select_map, filter_filter.
        apply filter_ext. intros row. unfold regular_pass at 2. simpl.
        fold d. now rewrite Hi.
Qed.

Lemma regular_only_spec (cols : list string)
    (filters : list (string * list cell)) (row : list cell) :
  forallb (regular_pass cols row) filters = true
  <-> satisfies_regular cols filters row.
Proof.
  unfold satisfies_regular. rewrite forallb_forall. split.
  - intros H col vals Hin. apply regular_pass_spec. now apply H.
  - intros H [col vals] Hin. apply regular_pass_spec. now apply H.
Qed.

(** X1.  [apply_exercise_filters] on a frame that has the columns of the
    selections that are not empty returns a new frame with the same
    columns whose rows are the rows of the input, in their order, whose
    cell is among the selected values for each such selection. *)
Theorem apply_exercise_filters_rows (h : store) (df : ref)
    (filters : list (string * list cell)) :
  regular_known (columns (nth df h no_frame)) filters ->
  exists out h',
    apply_exercise_filters df filters h = Ok (out, h')
    /\ (List.length h <= out)%nat
    /\ columns (nth out h' no_frame) = columns (nth df h no_frame)
    /\ rows (nth out h' no_frame)
       = filter (fun row => forallb (regular_pass (columns (nth df h no_frame)) row) filters)
                (rows (nth df h no_frame))
    /\ forall row,
         In row (rows (nth out h' no_frame))
         <-> In row (rows (nth df h no_frame))
             /\ satisfies_regular (columns (nth df h no_frame)) filters row.
Proof.
  intros Hk. set (d := nth df h no_frame) in *.
  destruct (exercise_loop filters (h ++ [d]) (List.length h))
    as (out & ext & E & Hout & Hd).
  { rewrite length_app. simpl. lia. }
  { now rewrite nth_new. }
  rewrite nth_new in Hd.
  exists out, ((h ++ [d]) ++ ext). split.
  { unfold apply_exercise_filters. unfold bind at 1. rewrite copy_eq. exact E. }
  split; [lia|]. rewrite Hd. cbn [columns rows].
  split; [reflexivity|]. split; [reflexivity|].
  intros row. rewrite filter_In, regular_only_spec. reflexivity.
Qed.

Lemma apply_exercise_filters_rows_witness :
  exists out h',
    apply_exercise_filters O [("Filmina", [IntV 1]); ("Ejercicio", [])]
      [exercises_demo] = Ok (out, h')
    /\ (List.length [exercises_demo] <= out)%nat
    /\ columns (nth out h' no_frame) = columns (nth O [exercises_demo] no_frame)
    /\ rows (nth out h' no_frame)
       = filter (fun row =>
                   forallb (regular_pass (columns (nth O [exercises_demo] no_frame)) row)
                           [("Filmina", [IntV 1]); ("Ejercicio", [])])
                (rows (nth O [exercises_demo] no_frame))
    /\ forall row,
         In row (rows (nth out h' no_frame))
         <-> In row (rows (nth O [exercises_demo] no_frame))
             /\ satisfies_regular (columns (nth O [exercises_demo] no_frame))
                  [("Filmina", [IntV 1]); ("Ejercicio", [])] row.
Proof.
  apply (apply_exercise_filters_rows [exercises_demo] O
           [("Filmina", [IntV 1]); ("Ejercicio", [])]).
  intros f [<-|[<-|[]]] H; simpl; auto.
Defined.

(** X4.  An active categorical predicate on a column that the frame does
    not have makes [apply_filters] raise [KeyError] for that column, when
    the predicates before it are on columns of the frame. *)
Theorem apply_filters_unknown_key (h : store) (df : ref)
    (before after : list (string * list cell)) (col : string)
    (selected_values : list cell) (slider_filters : list (string * Z)) :
  (df < List.length h)%nat ->
  regular_known (columns (nth df h no_frame)) before ->
  selected_values <> [] ->
  ~ In col (columns (nth df h no_frame)) ->
  apply_filters df (before ++ (col, selected_values) :: after) slider_filters h
  = Raise (KeyError col).
Proof.
  intros Hdf Hk Hne Hcol. set (d := nth df h no_frame) in *.
  destruct (regular_loop before (h ++ [d]) (List.length h) false)
    as (r & ext & E & Hr & Hd).
  { rewrite length_app. simpl. lia. }
  { now rewrite nth_new. }
  rewrite nth_new in Hd.
  unfold apply_filters. unfold bind at 1. rewrite copy_eq. fold d.
  unfold bind at 1. rewrite for_each_app. unfold bind at 1. rewrite E.
  destruct selected_values as [|v vs]; [contradiction|].
  cbn [for_each]. unfold bind at 1. unfold bind at 1.
  rewrite getitem_unknown; [reflexivity|].
  rewrite Hd. exact Hcol.
Qed.

Lemma apply_filters_unknown_key_witness :
  apply_filters O
    ([("Ojo Dominante", [StrV "Derecho"])] ++ ("Mano", [StrV "Derecha"]) :: [])
    [] [asymmetries_demo]
  = Raise (KeyError "Mano").
Proof.
  apply (apply_filters_unknown_key [asymmetries_demo] O
           [("Ojo Dominante", [StrV "Derecho"])] [] "Mano" [StrV "Derecha"] []).
  - simpl. lia.
  - intros f [<-|[]] _; simpl; auto.
  - discriminate.
  - simpl. intros [H|[H|[H|[]]]]; discriminate H.
Defined.







(** *** Fresh outputs *)

Lemma for_each_climbs {A S : Type} (pr : S -> ref) (body : A -> S -> M S)
    (xs : list A) :
  climbs pr body ->
  forall s h s' h',
    (pr s < List.length h)%nat -> for_each xs body s h = Ok (s', h') ->
    (pr s <= pr s' < List.length h')%nat.
Proof.
  intros Hb. induction xs as [|x xs IH]; intros s h s' h' Hs E.
  - simpl in E. unfold ret in E. injection E as <- <-. lia.
  - simpl in E. unfold bind in E.
    destruct (body x s h) as [[s1 h1]|e] eqn:E1; [|discriminate].
    pose proof (Hb x s h s1 h1 Hs E1) as H1.
    pose proof (IH s1 h1 s' h' (proj2 H1) E) as H2. lia.
Qed.

Lemma getitem_store (df : ref) (col : string) (h h' : store) (series : list cell) :
  getitem df col h = Ok (series, h') -> h' = h.
Proof.
  unfold getitem, bind, deref, lift. destruct (get_column _ col); [|discriminate].
  intros E. now injection E as _ <-.
Qed.

Lemma create_percentage_mask_store (df : ref) (col : string) (value : Z)
    (h h' : store) (mask : list bool) :
  create_percentage_mask df col value h = Ok (mask, h') -> h' = h.
Proof.
  unfold create_percentage_mask, bind, deref, lift.
  destruct (map_result _ _); [|discriminate].
  intros E. now injection E as _ <-.
Qed.

Lemma regular_body_climbs : climbs fst regular_body.
Proof.
  intros [col vals] [r any] h [r' any'] h' Hr E. cbn [fst] in *.
  destruct vals as [|v vs].
  - unfold ret in E. injection E as <- _ <-. lia.
  - unfold bind in E.
    destruct (getitem r col h) as [[series h1]|e] eqn:E1; [|discriminate].
    apply getitem_store in E1. subst h1.
    rewrite getitem_mask_eq in E. unfold ret in E. injection E as <- _ <-.
    rewrite length_app. simpl. lia.
Qed.

Lemma slider_body_climbs : climbs fst slider_body.
Proof.
  intros [col q] [r any] h [r' any'] h' Hr E. cbn [fst] in *.
  destruct (q =? 50).
  - unfold ret in E. injection E as <- _ <-. lia.
  - unfold bind in E.
    destruct (create_percentage_mask r col q h) as [[mask h1]|e] eqn:E1;
      [|discriminate].
    apply create_percentage_mask_store in E1. subst h1.
    rewrite getitem_mask_eq in E. unfold ret in E. injection E as <- _ <-.
    rewrite length_app. simpl. lia.
Qed.

Lemma exercise_body_climbs : climbs (fun r : ref => r) exercise_body.
Proof.
  intros [col vals] r h r' h' Hr E.
  destruct vals as [|v vs].
  - unfold ret in E. injection E as <- <-. lia.
  - unfold bind in E.
    destruct (getitem r col h) as [[series h1]|e] eqn:E1; [|discriminate].
    apply getitem_store in E1. subst h1.
    rewrite getitem_mask_eq in E. injection E as <- <-.
    rewrite length_app. simpl. lia.
Qed.

Lemma firstn_extends (h ext : store) : firstn (List.length h) (h ++ ext) = h.
Proof. rewrite firstn_app, Nat.sub_diag, firstn_all. simpl. apply app_nil_r. Qed.

(** X3.  Whatever the predicates, a run of [apply_filters] that returns
    hands back a reference to a frame created by the run, and every frame
    that was in the store, the input among them, is as it was. *)
Theorem apply_filters_fresh_output (h h' : store) (df out : ref) (any : bool)
    (filters : list (string * list cell)) (slider_filters : list (string * Z)) :
  apply_filters df filters slider_filters h = Ok ((out, any), h') ->
  (List.length h <= out < List.length h')%nat
  /\ firstn (List.length h) h' = h.
Proof.
  intros E. split.
  - unfold apply_filters in E. unfold bind at 1 in E. rewrite copy_eq in E.
    unfold bind at 1 in E.
    destruct (for_each filters _ _ _) as [[[r1 a1] h1]|e] eqn:E1; [|discriminate].
    apply (for_each_climbs fst _ _ regular_body_climbs) in E1;
      [|cbn; rewrite length_app; simpl; lia].
    apply (for_each_climbs fst _ _ slider_body_climbs) in E; [|apply E1].
    cbn [fst] in *. lia.
  - destruct (extends_apply_filters df filters slider_filters _ _ _ E) as [ext ->].
    apply firstn_extends.
Qed.

Lemma apply_filters_fresh_output_witness :
  (List.length [asymmetries_demo] <= 3 < List.length
     [asymmetries_demo;
      asymmetries_demo;
      {| columns := columns asymmetries_demo;
         rows := [[StrV "Derecho"; StrV "40% - 60%"; StrV "Lectura"];
                  [StrV "Derecho"; NaN; StrV "Memoria"];
                  [StrV "Derecho"; IntV 55; StrV "Dibujo"]] |};
      {| columns := columns asymmetries_demo;
         rows := [[StrV "Derecho"; StrV "40% - 60%"; StrV "Lectura"];
                  [StrV "Derecho"; IntV 55; StrV "Dibujo"]] |}])%nat
  /\ firstn (List.length [asymmetries_demo])
       [asymmetries_demo;
        asymmetries_demo;
        {| columns := columns asymmetries_demo;
           rows := [[StrV "Derecho"; StrV "40% - 60%"; StrV "Lectura"];
                    [StrV "Derecho"; NaN; StrV "Memoria"];
                    [StrV "Derecho"; IntV 55; StrV "Dibujo"]] |};
        {| columns := columns asymmetries_demo;
           rows := [[StrV "Derecho"; StrV "40% - 60%"; StrV "Lectura"];
                    [StrV "Derecho"; IntV 55; StrV "Dibujo"]] |}]
     = [asymmetries_demo].
Proof.
  apply (apply_filters_fresh_output [asymmetries_demo] _ O 3%nat true
           [("Ojo Dominante", [StrV "Derecho"; StrV "Ambos"]); ("Escenarios", [])]
           [("% Hemisferio Correspondiente al ojo (Natural)", 55)]).
  reflexivity.
Defined.

(** X2.  The same of [apply_exercise_filters]: its result is a frame
    created by the call and no frame of the store is changed. *)
Theorem apply_exercise_filters_fresh_output (h h' : store) (df out : ref)
    (filters : list (string * list cell)) :
  apply_exercise_filters df filters h = Ok (out, h') ->
  (List.length h <= out < List.length h')%nat
  /\ firstn (List.length h) h' = h.
Proof.
  intros E. split.
  - unfold apply_exercise_filters in E. unfold bind at 1 in E.
    rewrite copy_eq in E.
    apply (for_each_climbs (fun r : ref => r) _ _ exercise_body_climbs) in E;
      [|rewrite length_app; simpl; lia].
    lia.
  - destruct (extends_apply_exercise_filters df filters _ _ _ E) as [ext ->].
    apply firstn_extends.
Qed.

Lemma apply_exercise_filters_fresh_output_witness :
  (List.length [exercises_demo] <= 2 < List.length
     [exercises_demo; exercises_demo;
      {| columns := columns exercises_demo;
         rows := [[StrV "E1"; StrV "Lectura"; NaN; IntV 1];
                  [StrV "E3"; StrV "Calculo"; IntV 15; IntV 1]] |}])%nat
  /\ firstn (List.length [exercises_demo])
       [exercises_demo; exercises_demo;
        {| columns := columns exercises_demo;
           rows := [[StrV "E1"; StrV "Lectura"; NaN; IntV 1];
                    [StrV "E3"; StrV "Calculo"; IntV 15; IntV 1]] |}]
     = [exercises_demo].
Proof.
  apply (apply_exercise_filters_fresh_output [exercises_demo] _ O 2%nat
           [("Filmina", [IntV 1])]).
  reflexivity.
Defined.

(** ** More on the cross-reference *)

Lemma exercise_mask_plain_labels_witness :
  exists mask h',
    exercise_mask O ["Lectura"; "Nivel 1"] [exercises_demo] = Ok (mask, h')
    /\ List.length mask = List.length (rows (nth O [exercises_demo] no_frame))
    /\ forall k row,
         nth_error (rows (nth O [exercises_demo] no_frame)) k = Some row ->
         (nth_error mask k = Some true
          <-> exists col l c,
                In col (columns (nth O [exercises_demo] no_frame))
                /\ prefix "Escenario:" col = true
                /\ In l ["Lectura"; "Nivel 1"]
                /\ row_get (columns (nth O [exercises_demo] no_frame)) row col = Ok c
                /\ contains_substring (py_str c) l).
Proof.
  apply (exercise_mask_plain_labels [exercises_demo] O ["Lectura"; "Nivel 1"]).
  - simpl. lia.
  - repeat constructor.
Defined.

Lemma exercise_mask_writes_input_witness :
  exists mask h' g,
    exercise_mask O ["Lectura"] [exercises_demo; asymmetries_demo] = Ok (mask, h')
    /\ List.length h' = List.length [exercises_demo; asymmetries_demo]
    /\ (forall r, r <> O ->
          nth r h' no_frame = nth r [exercises_demo; asymmetries_demo] no_frame)
    /\ columns (nth O h' no_frame)
       = columns (nth O [exercises_demo; asymmetries_demo] no_frame)
    /\ rows (nth O h' no_frame)
       = map g (rows (nth O [exercises_demo; asymmetries_demo] no_frame))
    /\ written (positions
                  (columns (nth O [exercises_demo; asymmetries_demo] no_frame))
                  (scenario_columns
                     (nth O [exercises_demo; asymmetries_demo] no_frame))) g.
Proof.
  apply (exercise_mask_writes_input [exercises_demo; asymmetries_demo] O ["Lectura"]).
  - simpl. lia.
  - repeat constructor. eexists. reflexivity.
Defined.

Lemma row_hits_text (cols scols labels : list string) (row row' : list cell) :
  (forall j, py_str (cell_at j row') = py_str (cell_at j row)) ->
  row_hits cols scols labels row' = row_hits cols scols labels row.
Proof.
  intros H. unfold row_hits.
  induction scols as [|col scols IH]; simpl; [reflexivity|].
  rewrite IH. destruct (index_of col cols) as [i|]; [|reflexivity].
  now rewrite H.
Qed.

(** X8.  The cross-reference run again on the frame it has written
    returns the same mask: the write changes the type of cells, not
    their text, and the text is all the search reads. *)
Theorem exercise_mask_again (h : store) (df : ref) (labels : list string) :
  (df < List.length h)%nat ->
  Forall compiles labels ->
  exists mask h1 h2,
    exercise_mask df labels h = Ok (mask, h1)
    /\ exercise_mask df labels h1 = Ok (mask, h2).
Proof.
  intros Hdf Hc.
  destruct (exercise_mask_runs h df labels Hdf Hc) as (g & Hg & E1).
  set (d := nth df h no_frame) in *.
  set (h1 := update df {| columns := columns d; rows := map g (rows d) |} h) in *.
  assert (Hdf1 : (df < List.length h1)%nat) by (unfold h1; now rewrite update_length).
  destruct (exercise_mask_runs h1 df labels Hdf1 Hc) as (g2 & _ & E2).
  assert (Hd1 : nth df h1 no_frame = {| columns := columns d; rows := map g (rows d) |})
    by (unfold h1; now apply nth_update_same).
  rewrite Hd1 in E2. cbn [columns rows] in E2.
  eexists _, h1, _. split; [exact E1|]. rewrite E2. do 2 f_equal.
  rewrite map_map. apply map_ext. intros row.
  apply row_hits_text. apply (written_text _ g Hg).
Qed.

Lemma exercise_mask_again_witness :
  exists mask h1 h2,
    exercise_mask O ["na"; "Calc"] [exercises_demo] = Ok (mask, h1)
    /\ exercise_mask O ["na"; "Calc"] h1 = Ok (mask, h2).
Proof.
  apply (exercise_mask_again [exercises_demo] O ["na"; "Calc"]).
  - simpl. lia.
  - repeat constructor; eexists; reflexivity.
Defined.

Lemma select_repeat_false {A : Type} (xs : list A) :
  select (repeat false (List.length xs)) xs = [].
Proof. induction xs as [|x xs IH]; simpl; [reflexivity|exact IH]. Qed.

(** X10.  On an exercises frame without any "Escenario:" column, [main]
    with a selection that is not empty ends in the warning that no
    exercise was found, whatever the labels are, and leaves the frame as
    it is: no label is compiled or searched. *)
Theorem main_scenarios_without_scenario_column (h : store) (df_exercises : ref)
    (selected_escenarios : list string)
    (exercise_filters : list (string * list cell)) :
  scenario_columns (nth df_exercises h no_frame) = [] ->
  selected_escenarios <> [] ->
  main_scenarios df_exercises selected_escenarios exercise_filters h
  = Ok (Warning no_exercise_found,
        h ++ [{| columns := columns (nth df_exercises h no_frame); rows := [] |}]).
Proof.
  intros Hs Hne. destruct selected_escenarios as [|l ls]; [contradiction|].
  unfold main_scenarios. unfold bind at 1.
  rewrite (exercise_mask_no_scenario_column h df_exercises (l :: ls) Hs).
  unfold bind at 1. rewrite getitem_mask_eq.
  unfold bind at 1, deref. rewrite nth_new.
  unfold boolean_index, empty. cbn [columns rows].
  rewrite select_repeat_false.
  now destruct (columns (nth df_exercises h no_frame)).
Qed.

Lemma main_scenarios_without_scenario_column_witness :
  main_scenarios O ["(sin cerrar"] [] [asymmetries_demo]
  = Ok (Warning no_exercise_found,
        [asymmetries_demo]
        ++ [{| columns := columns (nth O [asymmetries_demo] no_frame); rows := [] |}]).
Proof.
  apply (main_scenarios_without_scenario_column [asymmetries_demo] O
           ["(sin cerrar"] []).
  - reflexivity.
  - discriminate.
Defined.

Lemma apply_exercise_filters_runs (h : store) (df : ref)
    (filters : list (string * list cell)) :
  regular_known (columns (nth df h no_frame)) filters ->
  exists out ext,
    apply_exercise_filters df filters h = Ok (out, h ++ ext)
    /\ (out < List.length (h ++ ext))%nat
    /\ nth out (h ++ ext) no_frame =
       {| columns := columns (nth df h no_frame);
          rows := filter (fun row =>
                            forallb (regular_pass (columns (nth df h no_frame)) row)
                                    filters)
                         (rows (nth df h no_frame)) |}.
Proof.
  intros Hk. set (d := nth df h no_frame) in *.
  destruct (exercise_loop filters (h ++ [d]) (List.length h))
    as (out & ext & E & Hout & Hd).
  { rewrite length_app. simpl. lia. }
  { now rewrite nth_new. }
  rewrite nth_new in Hd.
  exists out, (d :: ext).
  replace (h ++ d :: ext) with ((h ++ [d]) ++ ext) by (now rewrite <- app_assoc).
  split; [|split; [lia|exact Hd]].
  unfold apply_exercise_filters. unfold bind at 1. rewrite copy_eq. exact E.
Qed.

(** X11.  Lines 208 to 214 of [main] followed by line 219.  When the
    labels compile, boolean-indexing the exercises frame with the mask of
    the cross-reference and applying [apply_exercise_filters] to the
    result, with selections on columns of the frame, returns the rows of
    the frame, as the cross-reference has written it, that hit a label and
    pass every exercise selection. *)
Theorem apply_exercise_filters_after_cross_reference (h : store)
    (df_exercises : ref) (selected_escenarios : list string)
    (exercise_filters : list (string * list cell)) :
  (df_exercises < List.length h)%nat ->
  Forall compiles selected_escenarios ->
  regular_known (columns (nth df_exercises h no_frame)) exercise_filters ->
  exists final_exercises h' hits,
    (exercise_mask <- exercise_mask df_exercises selected_escenarios ;;
     filtered_exercises <- getitem_mask df_exercises exercise_mask ;;
     apply_exercise_filters filtered_exercises exercise_filters) h
    = Ok (final_exercises, h')
    /\ columns (nth df_exercises h' no_frame) = columns (nth df_exercises h no_frame)
    /\ hits = filter (row_hits (columns (nth df_exercises h no_frame))
                               (scenario_columns (nth df_exercises h no_frame))
                               selected_escenarios)
                     (rows (nth df_exercises h' no_frame))
    /\ columns (nth final_exercises h' no_frame)
       = columns (nth df_exercises h no_frame)
    /\ rows (nth final_exercises h' no_frame)
       = filter (fun row =>
                   forallb (regular_pass
                              (columns (nth df_exercises h no_frame)) row)
                           exercise_filters)
                hits.
Proof.
  intros Hdf Hc Hk. set (d := nth df_exercises h no_frame) in *.
  destruct (exercise_mask_runs h df_exercises selected_escenarios Hdf Hc)
    as (g & Hg & E1).
  fold d in E1, Hg.
  set (d1 := {| columns := columns d; rows := map g (rows d) |}) in *.
  set (h1 := update df_exercises d1 h) in *.
  assert (Hlen1 : List.length h1 = List.length h) by apply update_length.
  assert (Hd1 : nth df_exercises h1 no_frame = d1)
    by (now apply nth_update_same).
  set (hit := row_hits (columns d) (scenario_columns d) selected_escenarios) in *.
  assert (Emask : map hit (rows d) = map hit (rows d1)).
  { unfold d1. cbn [rows]. rewrite map_map. apply map_ext. intros row.
    symmetry. apply row_hits_text. apply (written_text _ g Hg). }
  set (d2 := {| columns := columns d; rows := filter hit (rows d1) |}).
  assert (E2 : boolean_index d1 (map hit (rows d)) = d2).
  { unfold boolean_index, d2. rewrite Emask, select_map. reflexivity. }
  destruct (apply_exercise_filters_runs (h1 ++ [d2]) (List.length h1)
              exercise_filters) as (out & ext & E3 & Hout & Hd3).
  { now rewrite nth_new. }
  rewrite nth_new in Hd3.
  exists out, ((h1 ++ [d2]) ++ ext), (filter hit (rows d1)).
  split.
  { unfold bind at 1. rewrite E1. unfold bind at 1.
    rewrite getitem_mask_eq, Hd1, E2. exact E3. }
  rewrite !app_nth1 by (rewrite ?length_app; simpl; lia). rewrite Hd1.
  split; [reflexivity|]. split; [reflexivity|].
  now rewrite Hd3.
Qed.

Lemma apply_exercise_filters_after_cross_reference_witness :
  exists final_exercises h' hits,
    (exercise_mask <- exercise_mask O ["Lectura"; "Memoria"] ;;
     filtered_exercises <- getitem_mask O exercise_mask ;;
     apply_exercise_filters filtered_exercises
       [("Filmina", [IntV 1]); ("Nivel de Ejercicio", []);
        ("Dificultad", [StrV "Alta"]); ("Dificultad de Nivel Ejercicio", [])])
      [exercises_levels_demo]
    = Ok (final_exercises, h')
    /\ columns (nth O h' no_frame) = columns (nth O [exercises_levels_demo] no_frame)
    /\ hits = filter (row_hits (columns (nth O [exercises_levels_demo] no_frame))
                               (scenario_columns (nth O [exercises_levels_demo] no_frame))
                               ["Lectura"; "Memoria"])
                     (rows (nth O h' no_frame))
    /\ columns (nth final_exercises h' no_frame)
       = columns (nth O [exercises_levels_demo] no_frame)
    /\ rows (nth final_exercises h' no_frame)
       = filter (fun row =>
                   forallb (regular_pass
                              (columns (nth O [exercises_levels_demo] no_frame)) row)
                           [("Filmina", [IntV 1]); ("Nivel de Ejercicio", []);
                            ("Dificultad", [StrV "Alta"]);
                            ("Dificultad de Nivel Ejercicio", [])])
                hits.
Proof.
  apply (apply_exercise_filters_after_cross_reference [exercises_levels_demo] O
           ["Lectura"; "Memoria"]
           [("Filmina", [IntV 1]); ("Nivel de Ejercicio", []);
            ("Dificultad", [StrV "Alta"]); ("Dificultad de Nivel Ejercicio", [])]).
  - simpl. lia.
  - repeat constructor; eexists; reflexivity.
  - intros f [<-|[<-|[<-|[<-|[]]]]] _; simpl; auto 10.
Defined.

Example apply_exercise_filters_after_cross_reference_demo :
  (exercise_mask <- exercise_mask O ["Lectura"; "Memoria"] ;;
   filtered_exercises <- getitem_mask O exercise_mask ;;
   apply_exercise_filters filtered_exercises
     [("Filmina", [IntV 1]); ("Nivel de Ejercicio", []);
      ("Dificultad", [StrV "Alta"]); ("Dificultad de Nivel Ejercicio", [])])
    [exercises_levels_demo]
  = Ok (4%nat,
        [exercises_levels_demo;
         {| columns := columns exercises_levels_demo;
            rows := [[StrV "E1"; StrV "Lectura"; IntV 1; IntV 1; StrV "Baja"; IntV 2];
                     [StrV "E3"; StrV "Lectura y Calculo"; IntV 1; IntV 2;
                      StrV "Alta"; IntV 1]] |};
         {| columns := columns exercises_levels_demo;
            rows := [[StrV "E1"; StrV "Lectura"; IntV 1; IntV 1; StrV "Baja"; IntV 2];
                     [StrV "E3"; StrV "Lectura y Calculo"; IntV 1; IntV 2;
                      StrV "Alta"; IntV 1]] |};
         {| columns := columns exercises_levels_demo;
            rows := [[StrV "E1"; StrV "Lectura"; IntV 1; IntV 1; StrV "Baja"; IntV 2];
                     [StrV "E3"; StrV "Lectura y Calculo"; IntV 1; IntV 2;
                      StrV "Alta"; IntV 1]] |};
         {| columns := columns exercises_levels_demo;
            rows := [[StrV "E3"; StrV "Lectura y Calculo"; IntV 1; IntV 2;
                      StrV "Alta"; IntV 1]] |}]).
Proof. reflexivity. Qed.

Lemma sre_parse_lone_backslash (p : string) :
  plain p = true -> sre_parse (p ++ "\")%string = Raise ReError.
Proof.
  induction p as [|c p IH]; intros H.
  - reflexivity.
  - simpl in H. apply andb_true_iff in H as [Hc Hp].
    apply negb_true_iff in Hc. cbn [String.append sre_parse].
    destruct (Ascii.eqb c ".") eqn:E1.
    { apply Ascii.eqb_eq in E1. subst c. now rewrite special_dot in Hc. }
    destruct (Ascii.eqb c "\") eqn:E2.
    { apply Ascii.eqb_eq in E2. subst c. now rewrite special_backslash in Hc. }
    rewrite Hc, (IH Hp). reflexivity.
Qed.

(** X9.  A selected label that ends in a lone backslash does not compile:
    on an exercises frame with an "Escenario:" column the cross-reference
    raises [re.error] when it reaches that label, the labels before it
    having compiled. *)
Theorem exercise_mask_lone_backslash (h : store) (df : ref)
    (before after : list string) (p : string) :
  (df < List.length h)%nat ->
  scenario_columns (nth df h no_frame) <> [] ->
  Forall compiles before ->
  plain p = true ->
  exercise_mask df (before ++ (p ++ "\")%string :: after) h = Raise ReError.
Proof.
  intros Hdf Hs Hc Hp. set (d := nth df h no_frame) in *.
  destruct (scenario_columns d) as [|col scols] eqn:Escols; [contradiction|].
  destruct (index_of_In col (columns d)) as [i Hi].
  { apply scenario_columns_known. rewrite Escols. now left. }
  unfold exercise_mask. unfold bind at 1, deref. fold d.
  unfold scenario_columns in Escols. rewrite Escols.
  cbn [for_each]. unfold bind at 1. unfold bind at 1.
  rewrite (getitem_known h df col i Hi). fold d.
  unfold bind at 1. unfold astype_str at 1. rewrite map_map.
  pose proof (setitem_known h df col i
                (fun row => StrV (py_str (cell_at i row))) Hi) as Eset.
  fold d in Eset. rewrite Eset. clear Eset.
  set (d1 := {| columns := columns d;
                rows := map (fun row => replace_nth i (StrV (py_str (cell_at i row))) row)
                            (rows d) |}).
  set (h1 := update df d1 h).
  assert (Hd1 : nth df h1 no_frame = d1) by (now apply nth_update_same).
  rewrite for_each_app. unfold bind at 1.
  rewrite repeat_false_map.
  rewrite (label_loop df col i (columns d) (rows d)
             (fun row => replace_nth i (StrV (py_str (cell_at i row))) row)
             before h1 (fun _ => false) Hd1 Hi); [|
    intros row; apply cell_at_replace_same | exact Hc].
  cbn [for_each]. unfold bind at 1. unfold bind at 1.
  rewrite (getitem_known h1 df col i) by (now rewrite Hd1).
  unfold bind at 1, lift, str_contains.
  now rewrite (sre_parse_lone_backslash p Hp).
Qed.

Lemma exercise_mask_lone_backslash_witness :
  exercise_mask O (["Lectura"] ++ ("C:\")%string :: ["Calculo"]) [exercises_demo]
  = Raise ReError.
Proof.
  apply (exercise_mask_lone_backslash [exercises_demo] O ["Lectura"] ["Calculo"] "C:").
  - simpl. lia.
  - discriminate.
  - repeat constructor. eexists. reflexivity.
  - reflexivity.
Defined.

(** ** More on the range matcher: [int] and [str] of integers *)

Lemma digit_step (a : positive) (c : ascii) (k : positive) :
  digit_val c = Z.pos k -> 10 * Z.pos a + digit_val c = Z.pos (k + 10 * a).
Proof. intros ->. lia. Qed.

Lemma int_of_digits_acc (d : Decimal.uint) :
  forall a : positive,
    int_of_digits (Z.pos a) (NilEmpty.string_of_uint d)
    = Ok (Z.pos (Pos.of_uint_acc d a)).
Proof.
  induction d; intros a; cbn [NilEmpty.string_of_uint int_of_digits Pos.of_uint_acc];
    try reflexivity;
    match goal with
    | |- context [is_digit ?c] => change (is_digit c) with true; cbv iota
    end;
    rewrite <- IHd; f_equal;
    try (apply digit_step; reflexivity).
Qed.

Lemma int_of_digits_uint (d : Decimal.uint) :
  int_of_digits 0 (NilEmpty.string_of_uint d) = Ok (Z.of_N (Pos.of_uint d)).
Proof.
  induction d; cbn [NilEmpty.string_of_uint int_of_digits Pos.of_uint];
    try reflexivity;
    match goal with
    | |- context [is_digit ?c] => change (is_digit c) with true; cbv iota
    end;
    try exact IHd;
    match goal with
    | |- int_of_digits ?acc _ = Ok (Z.of_N (N.pos (Pos.of_uint_acc _ ?k))) =>
        change acc with (Z.pos k); apply int_of_digits_acc
    end.
Qed.

Lemma all_digits_uint (d : Decimal.uint) :
  all_digits (NilEmpty.string_of_uint d) = true.
Proof. induction d; simpl; auto. Qed.

Lemma string_of_pos (p : positive) :
  NilZero.string_of_uint (Pos.to_uint p) = NilEmpty.string_of_uint (Pos.to_uint p)
  /\ NilEmpty.string_of_uint (Pos.to_uint p) <> EmptyString.
Proof.
  pose proof (Unsigned.to_uint_nonnil p) as H.
  destruct (Pos.to_uint p); try contradiction; split; try reflexivity; discriminate.
Qed.

(** The text of a natural number is a run of digits that [int] reads
    back as the number, when it has no more digits than [int] converts. *)
Lemma str_natural (n : Z) :
  0 <= n ->
  digit_run (py_str (IntV n))
  /\ (Z.of_nat (String.length (py_str (IntV n))) <= max_str_digits ->
      py_int (py_str (IntV n)) = Ok n).
Proof.
  intros Hn. destruct n as [|p|p]; [| |lia].
  - split; [split; [discriminate|reflexivity]|reflexivity].
  - cbn [py_str Z.to_int NilZero.string_of_int].
    destruct (string_of_pos p) as [-> Hne]. split.
    + split; [exact Hne|apply all_digits_uint].
    + intros Hlen. apply Z.leb_le in Hlen. unfold py_int.
      destruct (NilEmpty.string_of_uint (Pos.to_uint p)) eqn:E; [contradiction|].
      rewrite Hlen.
      rewrite <- E, int_of_digits_uint, DecimalPos.Unsigned.of_to. reflexivity.
Qed.

(** X12.  On an integer cell whose text has no more digits than [int]
    converts, the range matcher compares the value with the absolute
    value of the cell: the minus sign of [str] is no digit. *)
Theorem is_in_percentage_range_integer_cell (q z : Z) :
  Z.of_nat (String.length (py_str (IntV (Z.abs z)))) <= max_str_digits ->
  is_in_percentage_range q (IntV z) = Ok (q =? Z.abs z).
Proof.
  intros Hlen.
  assert (Hnat : forall n pre, 0 <= n -> no_digit pre = true ->
            findall_digits (pre ++ py_str (IntV n))%string = [py_str (IntV n)]).
  { intros n pre Hn Hpre.
    rewrite <- (string_app_nil_r (py_str (IntV n))) at 1.
    apply findall_digits_one; [exact Hpre|now apply str_natural|reflexivity]. }
  unfold is_in_percentage_range. cbn [isna].
  destruct z as [|p|p].
  - reflexivity.
  - pose proof (Hnat (Z.pos p) EmptyString (Pos2Z.is_nonneg p) eq_refl) as E.
    cbn [String.append] in E. rewrite E.
    destruct (str_natural (Z.pos p)) as [_ Hint]; [lia|].
    rewrite (Hint Hlen). reflexivity.
  - pose proof (Hnat (Z.pos p) (String "-" EmptyString) (Pos2Z.is_nonneg p) eq_refl)
      as E.
    change (py_str (IntV (Z.neg p)))
      with (String "-" EmptyString ++ py_str (IntV (Z.pos p)))%string.
    rewrite E.
    destruct (str_natural (Z.pos p)) as [_ Hint]; [lia|].
    rewrite (Hint Hlen). reflexivity.
Qed.

Lemma is_in_percentage_range_integer_cell_witness :
  Z.of_nat (String.length (py_str (IntV (Z.abs (-55))))) <= max_str_digits
  /\ is_in_percentage_range 55 (IntV (-55)) = Ok (55 =? Z.abs (-55)).
Proof.
  assert (H : Z.of_nat (String.length (py_str (IntV (Z.abs (-55)))))
              <= max_str_digits).
  { vm_compute. discriminate. }
  split; [exact H|].
  exact (is_in_percentage_range_integer_cell 55 (-55) H).
Defined.

(** X13.  A text that holds one natural number, of no more digits than
    [int] converts, among characters that are no digits matches the value
    equal to that number, whatever those characters are. *)
Theorem is_in_percentage_range_text_single (q n : Z) (pre post : string) :
  no_digit pre = true ->
  no_digit post = true ->
  0 <= n ->
  Z.of_nat (String.length (py_str (IntV n))) <= max_str_digits ->
  is_in_percentage_range q (StrV (pre ++ py_str (IntV n) ++ post)) = Ok (q =? n).
Proof.
  intros Hpre Hpost Hn Hlen. destruct (str_natural n Hn) as [Hrun Hint].
  specialize (Hint Hlen).
  set (t := py_str (IntV n)) in *.
  unfold is_in_percentage_range. cbn [isna py_str].
  rewrite (findall_digits_one pre t post Hpre Hrun Hpost).
  now rewrite Hint.
Qed.

Lemma is_in_percentage_range_text_single_witness :
  is_in_percentage_range 50 (StrV ("aprox. " ++ py_str (IntV 50) ++ " %"))
  = Ok (50 =? 50).
Proof.
  apply (is_in_percentage_range_text_single 50 50 "aprox. " " %").
  - reflexivity.
  - reflexivity.
  - lia.
  - vm_compute. discriminate.
Defined.

(** X14.  A text that holds two natural numbers, each of no more digits
    than [int] converts, apart and among characters that are no digits,
    matches the values from the first number to the second, both
    included. *)
Theorem is_in_percentage_range_text_pair (q lo hi : Z) (pre mid post : string) :
  no_digit pre = true ->
  no_digit mid = true ->
  mid <> EmptyString ->
  no_digit post = true ->
  0 <= lo ->
  0 <= hi ->
  Z.of_nat (String.length (py_str (IntV lo))) <= max_str_digits ->
  Z.of_nat (String.length (py_str (IntV hi))) <= max_str_digits ->
  is_in_percentage_range q
    (StrV (pre ++ py_str (IntV lo) ++ mid ++ py_str (IntV hi) ++ post))
  = Ok ((lo <=? q) && (q <=? hi)).
Proof.
  intros Hpre Hmid Hne Hpost Hlo Hhi Llo Lhi.
  destruct (str_natural lo Hlo) as [Hrlo Hilo].
  destruct (str_natural hi Hhi) as [Hrhi Hihi].
  specialize (Hilo Llo). specialize (Hihi Lhi).
  set (tlo := py_str (IntV lo)) in *. set (thi := py_str (IntV hi)) in *.
  unfold is_in_percentage_range. cbn [isna py_str].
  rewrite (findall_digits_two pre tlo mid thi post Hpre Hrlo Hmid Hne Hrhi Hpost).
  rewrite Hilo. cbn [rbind].
  destruct (lo <=? q); [now rewrite Hihi | reflexivity].
Qed.

Lemma is_in_percentage_range_text_pair_witness :
  is_in_percentage_range 55
    (StrV ("Entre " ++ py_str (IntV 40) ++ "% y " ++ py_str (IntV 60) ++ "%"))
  = Ok ((40 <=? 55) && (55 <=? 60)).
Proof.
  apply (is_in_percentage_range_text_pair 55 40 60 "Entre " "% y " "%").
  - reflexivity.
  - reflexivity.
  - discriminate.
  - reflexivity.
  - lia.
  - lia.
  - vm_compute. discriminate.
  - vm_compute. discriminate.
Defined.

Lemma digit_val_nonneg (c : ascii) : is_digit c = true -> 0 <= digit_val c.
Proof.
  destruct c as [[] [] [] [] [] [] [] []]; intros H; try discriminate H;
    vm_compute; discriminate.
Qed.

Lemma int_of_digits_nonneg (s : string) :
  forall acc n, 0 <= acc -> int_of_digits acc s = Ok n -> 0 <= n.
Proof.
  induction s as [|c s IH]; intros acc n Hacc E; cbn [int_of_digits] in E.
  - injection E as <-. exact Hacc.
  - destruct (is_digit c) eqn:Hc; [|discriminate].
    apply (IH _ n) in E; [exact E|].
    pose proof (digit_val_nonneg c Hc). lia.
Qed.

Lemma py_int_nonneg (s : string) (n : Z) : py_int s = Ok n -> 0 <= n.
Proof.
  unfold py_int. destruct s; [discriminate|].
  destruct (Z.of_nat (String.length (String a s)) <=? max_str_digits);
    [|discriminate].
  apply int_of_digits_nonneg. lia.
Qed.

(** X15.  No cell matches a negative value: the numbers read from a text
    are runs of digits, never below zero.  The range matcher never
    returns [True] on a negative value, and it returns [False] when no run
    of digits in the text of the cell is longer than [int] converts. *)
Theorem is_in_percentage_range_negative_value (q : Z) (c : cell) :
  q < 0 ->
  is_in_percentage_range q c <> Ok true
  /\ (short_runs c = true -> is_in_percentage_range q c = Ok false).
Proof.
  intros Hq.
  assert (Hnot : is_in_percentage_range q c <> Ok true).
  { unfold is_in_percentage_range.
    destruct (isna c); [discriminate|].
    destruct (findall_digits (py_str c)) as [|a [|b [|x l]]]; try discriminate.
    - destruct (py_int a) as [n|e] eqn:Hn; cbn [rbind]; [|discriminate].
      apply py_int_nonneg in Hn. intros H. injection H as H.
      apply Z.eqb_eq in H. lia.
    - destruct (py_int a) as [lo|e] eqn:Hlo; cbn [rbind]; [|discriminate].
      apply py_int_nonneg in Hlo.
      assert (E : (lo <=? q) = false) by (apply Z.leb_gt; lia).
      rewrite E. discriminate. }
  split; [exact Hnot|].
  intros Hshort. rewrite (is_in_percentage_range_short q c Hshort) in *.
  destruct (in_range q c); [now contradiction Hnot|reflexivity].
Qed.

Lemma is_in_percentage_range_negative_value_witness :
  is_in_percentage_range (-5) (IntV (-5)) <> Ok true
  /\ is_in_percentage_range (-5) (IntV (-5)) = Ok false.
Proof.
  destruct (is_in_percentage_range_negative_value (-5) (IntV (-5))) as [H1 H2];
    [lia|].
  split; [exact H1|]. apply H2. reflexivity.
Defined.

(** ** [main]: the scenario column and the labels offered *)

Lemma prefix_spec (p s : string) :
  prefix p s = true <-> exists post, s = (p ++ post)%string.
Proof.
  revert s. induction p as [|c p IH]; intros s.
  - split; [intros _; now exists s | intros _; now destruct s].
  - destruct s as [|x s]; cbn [prefix String.append].
    + split; [discriminate | intros [post H]; discriminate].
    + destruct (ascii_dec c x) as [->|Hne].
      * rewrite IH. split.
        -- intros [post ->]. now exists post.
        -- intros [post H]. injection H as ->. now exists post.
      * split; [discriminate|]. intros [post H]. injection H as H _.
        now contradiction Hne.
Qed.

Lemma py_in_spec (needle text : string) :
  py_in needle text = true <-> contains_substring text needle.
Proof.
  unfold contains_substring. induction text as [|c text IH].
  - cbn [py_in]. rewrite orb_false_r, prefix_spec. split.
    + intros [post H]. now exists EmptyString, post.
    + intros (pre & post & H). destruct pre; [|discriminate].
      now exists post.
  - cbn [py_in]. rewrite orb_true_iff, prefix_spec, IH. split.
    + intros [[post H]|(pre & post & ->)].
      * now exists EmptyString, post.
      * now exists (String c pre), post.
    + intros (pre & post & H). destruct pre as [|x pre].
      * left. now exists post.
      * right. injection H as _ ->. now exists pre, post.
Qed.

Lemma last_split {A : Type} (x : A) (l : list A) (d : A) :
  exists pre, x :: l = pre ++ [last (x :: l) d].
Proof.
  revert x. induction l as [|y l IH]; intros x.
  - now exists [].
  - destruct (IH y) as [pre E]. exists (x :: pre).
    change (last (x :: y :: l) d) with (last (y :: l) d).
    cbn [app]. f_equal. exact E.
Qed.

Lemma find_first {A : Type} (f : A -> bool) (l : list A) (x : A) :
  find f l = Some x ->
  f x = true
  /\ exists pre post, l = pre ++ x :: post /\ forall y, In y pre -> f y = false.
Proof.
  induction l as [|a l IH]; simpl; [discriminate|].
  destruct (f a) eqn:Ha.
  - intros E. injection E as ->. split; [exact Ha|].
    exists [], l. split; [reflexivity|]. intros y [].
  - intros E. destruct (IH E) as (Hx & pre & post & -> & Hpre).
    split; [exact Hx|]. exists (a :: pre), post. split; [reflexivity|].
    intros y [<-|Hy]; [exact Ha|now apply Hpre].
Qed.

(** X19.  On a frame with at least one column, the scenario column that
    [main] picks is a column of the frame: the first whose name contains
    "Escenario", or the last column when no name contains it.  Without
    any column the default [columns[-1]] raises [IndexError]. *)
Theorem escenarios_col_is_a_column (cols : list string) :
  (cols = [] -> escenarios_col cols = Failed IndexError)
  /\ (cols <> [] ->
      exists col,
        escenarios_col cols = Done col
        /\ In col cols
        /\ ((contains_substring col "Escenario"
             /\ exists pre post,
                  cols = pre ++ col :: post
                  /\ forall c, In c pre -> ~ contains_substring c "Escenario")
            \/ ((forall c, In c cols -> ~ contains_substring c "Escenario")
                /\ exists pre, cols = pre ++ [col]))).
Proof.
  split; [now intros ->|].
  intros Hne. destruct cols as [|c0 cols]; [contradiction|].
  unfold escenarios_col.
  destruct (find (py_in "Escenario") (c0 :: cols)) as [col|] eqn:E.
  - exists col. split; [reflexivity|].
    destruct (find_first _ _ _ E) as (Hcol & pre & post & Hsplit & Hpre).
    split; [rewrite Hsplit; apply in_elt|].
    left. split; [now apply py_in_spec|].
    exists pre, post. split; [exact Hsplit|].
    intros c Hc H. apply py_in_spec in H. rewrite (Hpre c Hc) in H. discriminate.
  - exists (last (c0 :: cols) EmptyString). split; [reflexivity|].
    destruct (last_split c0 cols EmptyString) as [pre Hpre].
    split.
    + rewrite Hpre at 2. apply in_elt.
    + right. split; [|now exists pre].
      intros c Hc H. apply py_in_spec in H.
      pose proof (find_none _ _ E c Hc) as Hn. rewrite Hn in H. discriminate.
Qed.

Lemma escenarios_col_is_a_column_witness :
  exists col,
    escenarios_col (columns asymmetries_demo) = Done col
    /\ In col (columns asymmetries_demo)
    /\ ((contains_substring col "Escenario"
         /\ exists pre post,
              columns asymmetries_demo = pre ++ col :: post
              /\ forall c, In c pre -> ~ contains_substring c "Escenario")
        \/ ((forall c, In c (columns asymmetries_demo) ->
               ~ contains_substring c "Escenario")
            /\ exists pre, columns asymmetries_demo = pre ++ [col])).
Proof.
  apply (proj2 (escenarios_col_is_a_column (columns asymmetries_demo))).
  discriminate.
Defined.

Lemma unique_from_spec (series : list cell) :
  forall seen,
    NoDup seen ->
    let out := fold_left
                 (fun seen c => if existsb (cell_eqb c) seen then seen
                                else seen ++ [c])
                 series seen in
    NoDup out
    /\ (forall c, In c out <-> In c seen \/ In c series)
    /\ exists added, out = seen ++ added.
Proof.
  induction series as [|x series IH]; intros seen Hnd; cbn [fold_left]; cbv zeta.
  - split; [exact Hnd|]. split; [intros c; simpl; tauto|].
    exists []. now rewrite app_nil_r.
  - destruct (existsb (cell_eqb x) seen) eqn:Hx.
    + apply existsb_cell_eqb in Hx.
      destruct (IH seen Hnd) as (H1 & H2 & H3). cbv zeta in H1, H2, H3.
      split; [exact H1|]. split; [|exact H3].
      intros c. rewrite H2. simpl. intuition (subst; auto).
    + assert (Hnot : ~ In x seen).
      { intros H. apply existsb_cell_eqb in H. rewrite H in Hx. discriminate. }
      destruct (IH (seen ++ [x])) as (H1 & H2 & added & H3).
      { apply NoDup_app; [exact Hnd|repeat constructor; intros []|].
        intros a Ha [<-|[]]. now apply Hnot. }
      cbv zeta in H1, H2, H3.
      split; [exact H1|]. split.
      * intros c. rewrite H2, in_app_iff. simpl. tauto.
      * exists (x :: added). rewrite H3, <- app_assoc. reflexivity.
Qed.

(** X20.  The labels offered for selection are the values of the scenario
    column of the filtered frame that are not missing, each one once. *)
Theorem all_escenarios_distinct_values (filtered_df : DataFrame) (col : string) :
  In col (columns filtered_df) ->
  exists series labels,
    get_column filtered_df col = Ok series
    /\ all_escenarios filtered_df col = Ok labels
    /\ NoDup labels
    /\ forall c, In c labels <-> In c series /\ c <> NaN.
Proof.
  intros Hcol. destruct (index_of_In col _ Hcol) as [i Hi].
  unfold all_escenarios, get_column. rewrite Hi. cbn [rbind].
  eexists _, _. split; [reflexivity|]. split; [reflexivity|].
  destruct (unique_from_spec (dropna (map (cell_at i) (rows filtered_df))) [])
    as (H1 & H2 & _); [constructor|].
  split; [exact H1|]. intros c. unfold unique. rewrite H2.
  unfold dropna. rewrite filter_In. simpl.
  destruct c; simpl; intuition congruence.
Qed.

Lemma all_escenarios_distinct_values_witness :
  exists series labels,
    get_column asymmetries_demo "Escenarios" = Ok series
    /\ all_escenarios asymmetries_demo "Escenarios" = Ok labels
    /\ NoDup labels
    /\ forall c, In c labels <-> In c series /\ c <> NaN.
Proof.
  apply (all_escenarios_distinct_values asymmetries_demo "Escenarios").
  simpl. auto.
Defined.

(** X21.  The default selection is the first five labels offered, all of
    them when there are five or fewer. *)
Theorem default_escenarios_first_five (labels : list cell) :
  default_escenarios labels = firstn 5 labels
  /\ List.length (default_escenarios labels) = Nat.min 5 (List.length labels)
  /\ ((List.length labels <= 5)%nat -> default_escenarios labels = labels).
Proof.
  assert (E : default_escenarios labels = firstn 5 labels).
  { unfold default_escenarios. destruct (5 <? List.length labels)%nat eqn:H.
    - reflexivity.
    - apply Nat.ltb_ge in H. symmetry. now apply firstn_all2. }
  split; [exact E|]. split.
  - rewrite E. apply length_firstn.
  - intros H. rewrite E. now apply firstn_all2.
Qed.

Lemma default_escenarios_first_five_witness :
  (List.length [StrV "a"; StrV "b"] <= 5)%nat
  /\ default_escenarios [StrV "a"; StrV "b"] = [StrV "a"; StrV "b"].
Proof.
  assert (H : (List.length [StrV "a"; StrV "b"] <= 5)%nat) by (simpl; lia).
  split; [exact H|].
  exact (proj2 (proj2 (default_escenarios_first_five [StrV "a"; StrV "b"])) H).
Defined.

(** ** [load_data]: what the two [dropna] leave *)

Lemma forallb_false_exists {A : Type} (f : A -> bool) (l : list A) :
  forallb f l = false -> exists x, In x l /\ f x = false.
Proof.
  induction l as [|a l IH]; simpl; [discriminate|].
  destruct (f a) eqn:Ha; simpl.
  - intros H. destruct (IH H) as (x & Hx & Hf). exists x. auto.
  - intros _. exists a. auto.
Qed.

Lemma filter_id {A : Type} (f : A -> bool) (l : list A) :
  (forall x, In x l -> f x = true) -> filter f l = l.
Proof.
  induction l as [|a l IH]; simpl; intros H; [reflexivity|].
  rewrite (H a (or_introl eq_refl)), IH; auto.
Qed.

Lemma filter_none {A : Type} (f : A -> bool) (l : list A) :
  (forall x, f x = false) -> filter f l = [].
Proof.
  intros H. induction l as [|a l IH]; simpl; [reflexivity|]. now rewrite H.
Qed.

Lemma map_nth_positions {A : Type} (l : list A) (d : A) :
  map (fun j => nth j l d) (seq 0 (List.length l)) = l.
Proof.
  induction l as [|a l IH]; simpl; [reflexivity|].
  f_equal. rewrite <- seq_shift, map_map. exact IH.
Qed.

Lemma cell_at_map (f : nat -> cell) (kept : list nat) (k : nat) :
  (k < List.length kept)%nat ->
  cell_at k (map f kept) = f (nth k kept O).
Proof.
  intros Hk. unfold cell_at.
  rewrite (nth_indep _ NaN (f O)) by (now rewrite length_map).
  apply map_nth.
Qed.

Lemma isna_false (c : cell) : isna c = false <-> c <> NaN.
Proof. destruct c; simpl; split; congruence. Qed.

Lemma kept_row (d : DataFrame) (row : list cell) :
  In row (rows (dropna_rows d)) ->
  exists j, In j (kept_positions (dropna_rows d)) /\ isna (cell_at j row) = false.
Proof.
  intros Hrow. pose proof Hrow as Hrow'.
  unfold dropna_rows in Hrow'. cbn [rows] in Hrow'.
  apply filter_In in Hrow' as [_ Hna]. apply negb_true_iff in Hna.
  destruct (forallb_false_exists _ _ Hna) as (j & Hj & Hcell).
  exists j. split; [|exact Hcell].
  unfold kept_positions. apply filter_In. split; [exact Hj|].
  apply negb_true_iff. apply not_true_iff_false. intros Hall.
  unfold column_all_na in Hall. rewrite forallb_forall in Hall.
  rewrite (Hall row Hrow) in Hcell. discriminate.
Qed.

Lemma kept_column (d : DataFrame) (j : nat) :
  In j (kept_positions d) ->
  exists row, In row (rows d) /\ isna (cell_at j row) = false.
Proof.
  unfold kept_positions. intros H. apply filter_In in H as [_ H].
  apply negb_true_iff in H. now apply forallb_false_exists in H.
Qed.

Lemma load_data_is_tidy (df : DataFrame) :
  tidy_rows (load_data (Some df)) /\ tidy_columns (load_data (Some df)).
Proof.
  unfold load_data. set (d1 := dropna_rows df). split.
  - intros row Hrow. unfold dropna_columns in *. cbn [rows columns] in *.
    apply in_map_iff in Hrow as (r & <- & Hr).
    split; [now rewrite !length_map|].
    destruct (kept_row df r Hr) as (j & Hj & Hcell).
    exists (cell_at j r). split; [|now apply isna_false].
    apply in_map_iff. now exists j.
  - intros k Hk. unfold dropna_columns in *. cbn [rows columns] in *.
    rewrite length_map in Hk.
    destruct (kept_column d1 (nth k (kept_positions d1) O)) as (r & Hr & Hcell).
    { now apply nth_In. }
    exists (map (fun j => cell_at j r) (kept_positions d1)). split.
    + apply in_map_iff. now exists r.
    + rewrite cell_at_map by exact Hk. now apply isna_false.
Qed.

(** X16.  The frame that [load_data] returns from a sheet is tidy: its
    rows have one cell per column, and no row and no column of it is
    missing throughout. *)
Theorem load_data_tidy (df : DataFrame) :
  (forall row, In row (rows (load_data (Some df))) ->
     List.length row = List.length (columns (load_data (Some df)))
     /\ exists c, In c row /\ c <> NaN)
  /\ (forall k, (k < List.length (columns (load_data (Some df))))%nat ->
        exists row, In row (rows (load_data (Some df))) /\ cell_at k row <> NaN).
Proof. exact (load_data_is_tidy df). Qed.

Lemma load_data_tidy_witness :
  List.length [StrV "E1"; IntV 1]
  = List.length (columns (load_data
                            (Some {| columns := ["Ejercicio"; "Unnamed: 1"; "Filmina"];
                                     rows := [[StrV "E1"; NaN; IntV 1];
                                              [NaN; NaN; NaN];
                                              [StrV "E2"; NaN; NaN]] |})))
  /\ exists c, In c [StrV "E1"; IntV 1] /\ c <> NaN.
Proof.
  apply (proj1 (load_data_tidy
                  {| columns := ["Ejercicio"; "Unnamed: 1"; "Filmina"];
                     rows := [[StrV "E1"; NaN; IntV 1];
                              [NaN; NaN; NaN];
                              [StrV "E2"; NaN; NaN]] |})).
  simpl. auto.
Defined.

Lemma tidy_fixed (d : DataFrame) :
  tidy_rows d -> tidy_columns d -> dropna_columns (dropna_rows d) = d.
Proof.
  intros Hrows Hcols.
  assert (E1 : dropna_rows d = d).
  { unfold dropna_rows. rewrite filter_id; [apply frame_eta|].
    intros row Hrow. apply negb_true_iff. apply not_true_iff_false. intros Hall.
    destruct (Hrows row Hrow) as (Hlen & c & Hc & Hne).
    destruct (In_nth _ _ NaN Hc) as (k & Hk & Hnth).
    unfold row_all_na in Hall. rewrite forallb_forall in Hall.
    assert (Hna : isna (cell_at k row) = true).
    { apply Hall. apply in_seq. lia. }
    unfold cell_at in Hna. rewrite Hnth in Hna.
    apply Hne. now destruct c. }
  rewrite E1.
  assert (E2 : kept_positions d = seq 0 (List.length (columns d))).
  { unfold kept_positions. apply filter_id. intros k Hk.
    apply in_seq in Hk. destruct (Hcols k) as (row & Hrow & Hne); [lia|].
    apply negb_true_iff. apply not_true_iff_false. intros Hall.
    unfold column_all_na in Hall. rewrite forallb_forall in Hall.
    apply Hne. specialize (Hall row Hrow). now destruct (cell_at k row). }
  unfold dropna_columns. rewrite E2, map_nth_positions.
  rewrite <- (frame_eta d) at 3. f_equal.
  rewrite <- (map_id (rows d)) at 2. apply map_ext_in. intros row Hrow.
  destruct (Hrows row Hrow) as [<- _]. apply map_nth_positions.
Qed.

(** X17.  Loading is idempotent: the two [dropna] of [load_data] applied
    to a frame that [load_data] has returned change nothing. *)
Theorem load_data_idempotent (df : DataFrame) :
  load_data (Some (load_data (Some df))) = load_data (Some df).
Proof.
  destruct (load_data_is_tidy df) as [Hrows Hcols].
  change (load_data (Some (load_data (Some df))))
    with (dropna_columns (dropna_rows (load_data (Some df)))).
  now apply tidy_fixed.
Qed.

(** X18.  [load_data] returns an empty frame, the one on which [main]
    stops with its loading error, when the sheet could not be fetched and
    when no row of the sheet has a cell that is not missing under a
    column; the frame is then the frame without columns and rows.  It
    returns a frame that is not empty in every other case. *)
Theorem load_data_empty (fetched : option DataFrame) :
  (empty (load_data fetched) = true
   <-> match fetched with
       | None => True
       | Some df =>
           forall row, In row (rows df) ->
             row_all_na (List.length (columns df)) row = true
       end)
  /\ (empty (load_data fetched) = true -> load_data fetched = no_frame).
Proof.
  destruct fetched as [df|]; [|split; [split; auto|reflexivity]].
  assert (Hiff : rows (dropna_rows df) = []
                 <-> forall row, In row (rows df) ->
                       row_all_na (List.length (columns df)) row = true).
  { unfold dropna_rows. cbn [rows]. split.
    - intros H row Hrow.
      destruct (row_all_na (List.length (columns df)) row) eqn:E; [reflexivity|].
      assert (Hin : In row (filter (fun r => negb (row_all_na (List.length (columns df)) r))
                                   (rows df))).
      { apply filter_In. split; [exact Hrow|]. now rewrite E. }
      rewrite H in Hin. contradiction.
    - intros H. destruct (filter _ (rows df)) as [|r l] eqn:E; [reflexivity|].
      assert (Hin : In r (filter (fun r => negb (row_all_na (List.length (columns df)) r))
                                 (rows df))) by (rewrite E; now left).
      apply filter_In in Hin as [Hr Hneg]. rewrite (H r Hr) in Hneg. discriminate. }
  assert (Hempty : empty (load_data (Some df)) = true <-> rows (dropna_rows df) = []).
  { unfold load_data, dropna_columns, empty. cbn [columns rows].
    destruct (rows (dropna_rows df)) as [|r l] eqn:E.
    - split; [reflexivity|]. intros _. simpl.
      now destruct (map _ (kept_positions (dropna_rows df))).
    - destruct (kept_row df r) as (j & Hj & _); [rewrite E; now left|].
      destruct (kept_positions (dropna_rows df)); [contradiction|].
      simpl. split; discriminate. }
  split.
  - now rewrite Hempty, Hiff.
  - intros H. apply Hempty in H.
    unfold load_data, dropna_columns, kept_positions. rewrite H. cbn [map].
    rewrite filter_none by reflexivity. reflexivity.
Qed.

Lemma load_data_empty_witness :
  empty (load_data (Some {| columns := ["A"; "B"]; rows := [[NaN; NaN]; [NaN]] |}))
  = true
  /\ load_data (Some {| columns := ["A"; "B"]; rows := [[NaN; NaN]; [NaN]] |})
     = no_frame.
Proof.
  assert (H : empty (load_data
                       (Some {| columns := ["A"; "B"]; rows := [[NaN; NaN]; [NaN]] |}))
              = true) by reflexivity.
  split; [exact H|].
  exact (proj2 (load_data_empty
                  (Some {| columns := ["A"; "B"]; rows := [[NaN; NaN]; [NaN]] |})) H).
Defined.

Example load_data_demo :
  load_data (Some {| columns := ["Ejercicio"; "Unnamed: 1"; "Filmina"];
                     rows := [[StrV "E1"; NaN; IntV 1];
                              [NaN; NaN; NaN];
                              [StrV "E2"; NaN; NaN]] |})
  = {| columns := ["Ejercicio"; "Filmina"];
       rows := [[StrV "E1"; IntV 1]; [StrV "E2"; NaN]] |}.
Proof. reflexivity. Qed.

(** ** [sorted] on the values of a column *)

Lemma cell_lt_asym (K : cell -> bool) (a b : cell) :
  K = is_text \/ K = is_number ->
  K a = true -> K b = true ->
  exists r, cell_lt a b = Done r /\ (r = true -> cell_lt b a = Done false).
Proof.
  intros [->| ->] Ha Hb; destruct a as [|x|s]; try discriminate Ha;
    destruct b as [|y|t]; try discriminate Hb; cbn [cell_lt];
    eexists; split; try reflexivity.
  - intros H. f_equal. unfold String.ltb in *.
    rewrite (String.compare_antisym t s).
    destruct (String.compare s t); simpl in *; congruence.
  - intros H. f_equal. apply Z.ltb_lt in H. apply Z.ltb_ge. lia.
Qed.

Lemma insert_sorted_kind (K : cell -> bool) (x : cell) (s : list cell) :
  K = is_text \/ K = is_number ->
  K x = true -> Forall (fun c => K c = true) s ->
  exists s',
    insert_sorted x s = Done s'
    /\ Forall (fun c => K c = true) s'
    /\ Permutation (x :: s) s'
    /\ (Sorted cell_le s -> Sorted cell_le s')
    /\ (forall y, HdRel cell_le y s -> cell_le y x -> HdRel cell_le y s').
Proof.
  intros HK Hx. induction s as [|y s IH]; intros Hs.
  - exists [x]. split; [reflexivity|]. split; [now constructor|].
    split; [reflexivity|]. split.
    + intros _. repeat constructor.
    + intros z _ Hz. now constructor.
  - inversion Hs as [|? ? Hy Hs']; subst.
    destruct (cell_lt_asym K x y HK Hx Hy) as (r & Er & Hr).
    cbn [insert_sorted]. rewrite Er. cbn [abind]. destruct r.
    + exists (x :: y :: s). split; [reflexivity|]. split; [now constructor|].
      split; [reflexivity|]. split.
      * intros Hsorted. constructor; [exact Hsorted|].
        constructor. unfold cell_le. now apply Hr.
      * intros z _ Hz. now constructor.
    + destruct (IH Hs') as (s' & E & HK' & Hperm & Hsort & Hhd).
      rewrite E. cbn [abind]. exists (y :: s'). split; [reflexivity|].
      split; [now constructor|]. split; [|split].
      * rewrite perm_swap. now constructor.
      * intros Hsorted. inversion Hsorted as [|? ? Hs0 Hhd0]; subst.
        constructor; [now apply Hsort|]. now apply Hhd.
      * intros z Hz _. inversion Hz; subst. now constructor.
Qed.

Lemma py_sorted_kind (K : cell -> bool) (l : list cell) :
  K = is_text \/ K = is_number ->
  Forall (fun c => K c = true) l ->
  exists s,
    py_sorted l = Done s
    /\ Forall (fun c => K c = true) s
    /\ Permutation l s
    /\ Sorted cell_le s.
Proof.
  intros HK. induction l as [|x l IH]; intros Hl.
  - exists []. repeat split; auto.
  - inversion Hl as [|? ? Hx Hl']; subst.
    destruct (IH Hl') as (s & E & Hs & Hperm & Hsorted).
    destruct (insert_sorted_kind K x s HK Hx Hs) as (s' & E' & Hs' & Hperm' & Hsort' & _).
    exists s'. cbn [py_sorted]. rewrite E. cbn [abind].
    split; [exact E'|]. split; [exact Hs'|]. split; [|now apply Hsort'].
    rewrite <- Hperm'. now constructor.
Qed.

Lemma no_text_numbers (l : list cell) :
  Forall (fun c => isna c = false) l ->
  existsb is_text l = false ->
  Forall (fun c => is_number c = true) l.
Proof.
  induction l as [|x l IH]; intros Hna H; [constructor|].
  inversion Hna; subst. simpl in H. apply orb_false_iff in H as [Hx Hl].
  constructor; [|now apply IH].
  destruct x; simpl in *; congruence.
Qed.

Lemma no_number_texts (l : list cell) :
  Forall (fun c => isna c = false) l ->
  existsb is_number l = false ->
  Forall (fun c => is_text c = true) l.
Proof.
  induction l as [|x l IH]; intros Hna H; [constructor|].
  inversion Hna; subst. simpl in H. apply orb_false_iff in H as [Hx Hl].
  constructor; [|now apply IH].
  destruct x; simpl in *; congruence.
Qed.

Lemma mixed_spec (l : list cell) :
  mixed l <-> existsb is_text l && existsb is_number l = true.
Proof.
  unfold mixed. rewrite andb_true_iff, !existsb_exists. split.
  - intros [[s Hs] [z Hz]]. split.
    + exists (StrV s). now split.
    + exists (IntV z). now split.
  - intros [(a & Ha & Ka) (b & Hb & Kb)].
    destruct a as [|x|s]; try discriminate Ka.
    destruct b as [|y|t]; try discriminate Kb.
    split; [now exists s|now exists y].
Qed.

Lemma insert_text_among_numbers (x : cell) (s : list cell) :
  is_text x = true -> Forall (fun c => is_number c = true) s -> s <> [] ->
  insert_sorted x s = Failed TypeError.
Proof.
  intros Hx Hs Hne. destruct s as [|y s]; [contradiction|].
  inversion Hs; subst. destruct x; try discriminate Hx.
  destruct y; try discriminate. reflexivity.
Qed.

Lemma insert_number_among_texts (x : cell) (s : list cell) :
  is_number x = true -> Forall (fun c => is_text c = true) s -> s <> [] ->
  insert_sorted x s = Failed TypeError.
Proof.
  intros Hx Hs Hne. destruct s as [|y s]; [contradiction|].
  inversion Hs; subst. destruct x; try discriminate Hx.
  destruct y; try discriminate. reflexivity.
Qed.

Lemma py_sorted_mixed (l : list cell) :
  Forall (fun c => isna c = false) l ->
  mixed l -> py_sorted l = Failed TypeError.
Proof.
  induction l as [|x l IH]; intros Hna Hm.
  - destruct Hm as [[s []] _].
  - inversion Hna as [|? ? Hx Hl]; subst. cbn [py_sorted].
    destruct (existsb is_text l && existsb is_number l) eqn:Hml.
    + rewrite IH; [reflexivity|exact Hl|now apply mixed_spec].
    + apply mixed_spec in Hm. cbn [existsb] in Hm.
      apply andb_true_iff in Hm as [Ht Hn].
      apply andb_false_iff in Hml as [Hnt|Hnn].
      * rewrite Hnt, orb_false_r in Ht.
        pose proof (no_text_numbers l Hl Hnt) as Hnums.
        destruct (py_sorted_kind is_number l (or_intror eq_refl) Hnums)
          as (s & E & Hs & Hperm & _).
        rewrite E. cbn [abind]. apply insert_text_among_numbers; auto.
        intros ->. apply Permutation_sym, Permutation_nil in Hperm. subst l.
        destruct x; discriminate.
      * rewrite Hnn, orb_false_r in Hn.
        pose proof (no_number_texts l Hl Hnn) as Htexts.
        destruct (py_sorted_kind is_text l (or_introl eq_refl) Htexts)
          as (s & E & Hs & Hperm & _).
        rewrite E. cbn [abind]. apply insert_number_among_texts; auto.
        intros ->. apply Permutation_sym, Permutation_nil in Hperm. subst l.
        destruct x; discriminate.
Qed.

Lemma py_sorted_done (l s : list cell) :
  Forall (fun c => isna c = false) l ->
  py_sorted l = Done s ->
  ~ mixed l /\ Permutation l s /\ Sorted cell_le s.
Proof.
  intros Hna E.
  destruct (existsb is_text l && existsb is_number l) eqn:Hm.
  - apply mixed_spec in Hm. rewrite (py_sorted_mixed l Hna Hm) in E. discriminate.
  - split; [intros H; apply mixed_spec in H; congruence|].
    apply andb_false_iff in Hm as [Hnt|Hnn].
    + destruct (py_sorted_kind is_number l (or_intror eq_refl)
                  (no_text_numbers l Hna Hnt)) as (s' & E' & _ & Hperm & Hsorted).
      rewrite E' in E. injection E as <-. auto.
    + destruct (py_sorted_kind is_text l (or_introl eq_refl)
                  (no_number_texts l Hna Hnn)) as (s' & E' & _ & Hperm & Hsorted).
      rewrite E' in E. injection E as <-. auto.
Qed.

(** [sorted] on values none of which is missing returns, when no text
    stands beside a number, the values in ascending order; it raises
    [TypeError] when a text stands beside a number. *)
Lemma py_sorted_sorts (values : list cell) :
  Forall (fun c => isna c = false) values ->
  (mixed values -> py_sorted values = Failed TypeError)
  /\ (~ mixed values ->
      exists sorted,
        py_sorted values = Done sorted
        /\ Permutation values sorted
        /\ Sorted cell_le sorted).
Proof.
  intros Hna. split; [now apply py_sorted_mixed|].
  intros Hm.
  destruct (existsb is_text values && existsb is_number values) eqn:E.
  { contradiction Hm. now apply mixed_spec. }
  apply andb_false_iff in E as [Hnt|Hnn].
  - destruct (py_sorted_kind is_number values (or_intror eq_refl)
                (no_text_numbers values Hna Hnt)) as (s & Es & _ & Hperm & Hsorted).
    now exists s.
  - destruct (py_sorted_kind is_text values (or_introl eq_refl)
                (no_number_texts values Hna Hnn)) as (s & Es & _ & Hperm & Hsorted).
    now exists s.
Qed.


(** ** [create_sidebar_filters] *)

Lemma dict_set_keys {V : Type} (key : string) (v : V) (d : list (string * V))
    (k : string) :
  In k (map fst (dict_set key v d)) <-> k = key \/ In k (map fst d).
Proof.
  induction d as [|[k0 v0] d IH]; simpl.
  - intuition congruence.
  - destruct (String.eqb k0 key) eqn:E; simpl.
    + apply String.eqb_eq in E. subst k0. intuition congruence.
    + rewrite IH. intuition congruence.
Qed.

Lemma dict_set_items {V : Type} (key : string) (v : V) (d : list (string * V))
    (k : string) (x : V) :
  In (k, x) (dict_set key v d) -> (k = key /\ x = v) \/ In (k, x) d.
Proof.
  induction d as [|[k0 v0] d IH]; simpl.
  - intros [H|[]]. injection H as <- <-. now left.
  - destruct (String.eqb k0 key) eqn:E; simpl.
    + apply String.eqb_eq in E. subst k0.
      intros [H|H]; [injection H as <- <-; now left|now right; right].
    + intros [H|H]; [now right; left|].
      destruct (IH H) as [H'|H']; [now left|now right; right].
Qed.

Lemma slider_column_spec (col : string) :
  existsb (String.eqb col) slider_columns = true <-> In col slider_columns.
Proof.
  rewrite existsb_exists. split.
  - intros (x & Hx & E). apply String.eqb_eq in E. now subst.
  - intros H. exists col. split; [exact H|apply String.eqb_refl].
Qed.

Lemma dropna_spec (series : list cell) (c : cell) :
  In c (dropna series) <-> In c series /\ isna c = false.
Proof.
  unfold dropna. rewrite filter_In. now rewrite negb_true_iff.
Qed.

Lemma unique_spec (series : list cell) :
  NoDup (unique series) /\ forall c, In c (unique series) <-> In c series.
Proof.
  destruct (unique_from_spec series [] (NoDup_nil _)) as (H1 & H2 & _).
  cbv zeta in H1, H2. split; [exact H1|].
  intros c. unfold unique. rewrite H2. simpl. tauto.
Qed.

Lemma options_spec (series : list cell) (c : cell) :
  In c (unique (dropna series)) <-> In c series /\ isna c = false.
Proof.
  rewrite (proj2 (unique_spec (dropna series)) c). apply dropna_spec.
Qed.

Lemma options_present (series : list cell) :
  Forall (fun c => isna c = false) (unique (dropna series)).
Proof.
  apply Forall_forall. intros c Hc. now apply options_spec in Hc.
Qed.

Lemma mixed_options (series : list cell) :
  mixed (unique (dropna series)) <-> mixed series.
Proof.
  unfold mixed. split; intros [[s Hs] [z Hz]]; split.
  - exists s. now apply options_spec in Hs.
  - exists z. now apply options_spec in Hz.
  - exists s. now apply options_spec.
  - exists z. now apply options_spec.
Qed.

Lemma py_sorted_failed (l : list cell) (f : failure) :
  Forall (fun c => isna c = false) l ->
  py_sorted l = Failed f -> f = TypeError /\ mixed l.
Proof.
  intros Hna E.
  destruct (existsb is_text l && existsb is_number l) eqn:Hm.
  - apply mixed_spec in Hm. rewrite (py_sorted_mixed l Hna Hm) in E.
    injection E as <-. now split.
  - assert (Hn : ~ mixed l) by (intros H; apply mixed_spec in H; congruence).
    destruct (proj2 (py_sorted_sorts l Hna) Hn) as (s & Es & _).
    rewrite Es in E. discriminate.
Qed.

Local Abbreviation sidebar_step ui df :=
  (fun (state : attempt (list (string * list cell) * list (string * Z)))
       (col_name : string) =>
     try st := state in
     let '(filters, slider_filters) := st in
     if existsb (String.eqb col_name) slider_columns then
       Done (filters,
             dict_set col_name
               (slider ui ("Filtrar por " ++ col_name)%string 0 100 50 1)
               slider_filters)
     else
       try series := of_result (get_column df col_name) in
       try unique_values := py_sorted (unique (dropna series)) in
       Done (dict_set col_name
               (multiselect ui ("Filtrar por " ++ col_name)%string
                  unique_values [])
               filters,
             slider_filters)).

Lemma sidebar_failed (ui : widgets) (df : DataFrame) (cols : list string)
    (f : failure) :
  fold_left (sidebar_step ui df) cols (Failed f) = Failed f.
Proof. induction cols as [|c cols IH]; simpl; [reflexivity|exact IH]. Qed.

Lemma get_column_known (df : DataFrame) (col : string) :
  In col (columns df) -> exists series, get_column df col = Ok series.
Proof.
  intros H. destruct (index_of_In col _ H) as [i Hi].
  unfold get_column. rewrite Hi. now eexists.
Qed.

Lemma sidebar_loop_done (ui : widgets) (df : DataFrame) (cols : list string) :
  (forall c, In c cols -> In c (columns df)) ->
  forall f s f' s',
    fold_left (sidebar_step ui df) cols (Done (f, s)) = Done (f', s') ->
    built_by ui df cols f f' s s'.
Proof.
  induction cols as [|c cols IH]; intros Hin f s f' s' E.
  - simpl in E. injection E as <- <-. unfold built_by.
    split; [|split; [|split]]; try (intros k; cbn [In]; tauto); auto.
  - cbn [fold_left abind] in E.
    assert (Hin' : forall x, In x cols -> In x (columns df))
      by (intros x Hx; apply Hin; now right).
    destruct (existsb (String.eqb c) slider_columns) eqn:Hs.
    + apply slider_column_spec in Hs.
      destruct (IH Hin' _ _ _ _ E) as (K1 & K2 & V1 & V2).
      unfold built_by. split; [|split; [|split]].
      * intros k. rewrite K1. cbn [In].
        intuition (subst; auto; contradiction).
      * intros k. rewrite K2, dict_set_keys. cbn [In].
        intuition (subst; auto; contradiction).
      * exact V1.
      * intros k q Hq. destruct (V2 k q Hq) as [H|H]; [|now right].
        apply dict_set_items in H as [[-> ->]|H]; [now right|now left].
    + assert (Hns : ~ In c slider_columns).
      { intros H. apply slider_column_spec in H. congruence. }
      destruct (get_column_known df c (Hin c (or_introl eq_refl))) as [series Es].
      rewrite Es in E. cbn [of_result abind] in E.
      destruct (py_sorted (unique (dropna series))) as [options|e] eqn:Eo;
        cbn [abind] in E; [|rewrite sidebar_failed in E; discriminate].
      destruct (IH Hin' _ _ _ _ E) as (K1 & K2 & V1 & V2).
      unfold built_by. split; [|split; [|split]].
      * intros k. rewrite K1, dict_set_keys. cbn [In].
        intuition (subst; auto; contradiction).
      * intros k. rewrite K2. cbn [In].
        intuition (subst; auto; contradiction).
      * intros k v Hv. destruct (V1 k v Hv) as [H|H]; [|now right].
        apply dict_set_items in H as [[-> ->]|H]; [|now left].
        right. now exists series, options.
      * exact V2.
Qed.

Lemma sidebar_loop_failed (ui : widgets) (df : DataFrame) (cols : list string) :
  (forall c, In c cols -> In c (columns df)) ->
  forall f s e,
    fold_left (sidebar_step ui df) cols (Done (f, s)) = Failed e ->
    e = TypeError
    /\ exists c series,
         In c cols /\ ~ In c slider_columns
         /\ get_column df c = Ok series /\ mixed series.
Proof.
  induction cols as [|c cols IH]; intros Hin f s e E.
  - discriminate E.
  - cbn [fold_left abind] in E.
    assert (Hin' : forall x, In x cols -> In x (columns df))
      by (intros x Hx; apply Hin; now right).
    destruct (existsb (String.eqb c) slider_columns) eqn:Hs.
    + destruct (IH Hin' _ _ _ E) as (He & c' & series & Hc' & H).
      split; [exact He|]. exists c', series. split; [now right|exact H].
    + assert (Hns : ~ In c slider_columns).
      { intros H. apply slider_column_spec in H. congruence. }
      destruct (get_column_known df c (Hin c (or_introl eq_refl))) as [series Es].
      rewrite Es in E. cbn [of_result abind] in E.
      destruct (py_sorted (unique (dropna series))) as [options|e'] eqn:Eo;
        cbn [abind] in E.
      * destruct (IH Hin' _ _ _ E) as (He & c' & series' & Hc' & H).
        split; [exact He|]. exists c', series'. split; [now right|exact H].
      * rewrite sidebar_failed in E. injection E as <-.
        destruct (py_sorted_failed _ _ (options_present series) Eo) as [-> Hm].
        split; [reflexivity|]. exists c, series.
        split; [now left|]. split; [exact Hns|]. split; [exact Es|].
        now apply mixed_options.
Qed.

Lemma sidebar_loop_mixed (ui : widgets) (df : DataFrame) (cols : list string) :
  forall f s c series,
    In c cols -> ~ In c slider_columns ->
    get_column df c = Ok series -> mixed series ->
    exists e, fold_left (sidebar_step ui df) cols (Done (f, s)) = Failed e.
Proof.
  induction cols as [|c0 cols IH]; intros f s c series Hc Hns Es Hm; [contradiction|].
  cbn [fold_left abind].
  destruct (existsb (String.eqb c0) slider_columns) eqn:Hs.
  - destruct Hc as [->|Hc].
    + apply slider_column_spec in Hs. contradiction.
    + now apply (IH _ _ c series).
  - destruct (get_column df c0) as [series0|e0] eqn:Es0; cbn [of_result abind];
      [|rewrite sidebar_failed; now eexists].
    destruct (py_sorted (unique (dropna series0))) as [options|e'] eqn:Eo;
      cbn [abind]; [|rewrite sidebar_failed; now eexists].
    destruct Hc as [->|Hc].
    + rewrite Es in Es0. injection Es0 as <-.
      rewrite (py_sorted_mixed _ (options_present series)) in Eo;
        [discriminate|now apply mixed_options].
    + now apply (IH _ _ c series).
Qed.

Lemma filter_cols_spec (df : DataFrame) (escenarios_col c : string) :
  In c (filter (fun col => negb (String.eqb col escenarios_col)
                           && negb (String.eqb col "Descripcion"))
               (columns df))
  <-> In c (columns df) /\ c <> escenarios_col /\ c <> "Descripcion".
Proof.
  rewrite filter_In, andb_true_iff, !negb_true_iff, !String.eqb_neq. tauto.
Qed.

Lemma sidebar_built (ui : widgets) (df : DataFrame) (escenarios_col : string)
    (filters : list (string * list cell)) (slider_filters : list (string * Z)) :
  create_sidebar_filters ui df escenarios_col = Done (filters, slider_filters) ->
  built_by ui df
    (filter (fun col => negb (String.eqb col escenarios_col)
                        && negb (String.eqb col "Descripcion"))
            (columns df))
    [] filters [] slider_filters.
Proof.
  intros E. apply sidebar_loop_done; [|exact E].
  intros c Hc. now apply filter_cols_spec in Hc.
Qed.

(** X22.  The two dicts that [create_sidebar_filters] returns are keyed by
    the columns of the frame other than the scenario column and
    "Descripcion": the two percentage columns in the slider dict, every
    other column in the categorical dict. *)
Theorem create_sidebar_filters_keys (ui : widgets) (df : DataFrame)
    (escenarios_col : string)
    (filters : list (string * list cell)) (slider_filters : list (string * Z)) :
  create_sidebar_filters ui df escenarios_col = Done (filters, slider_filters) ->
  (forall k, In k (map fst filters)
             <-> In k (columns df) /\ k <> escenarios_col /\ k <> "Descripcion"
                 /\ ~ In k slider_columns)
  /\ (forall k, In k (map fst slider_filters)
                <-> In k (columns df) /\ k <> escenarios_col /\ k <> "Descripcion"
                    /\ In k slider_columns).
Proof.
  intros E. destruct (sidebar_built _ _ _ _ _ E) as (K1 & K2 & _ & _).
  split; intros k.
  - rewrite K1, filter_cols_spec. simpl. tauto.
  - rewrite K2, filter_cols_spec. simpl. tauto.
Qed.

Lemma create_sidebar_filters_keys_witness :
  (forall k, In k (map fst [("Ojo Dominante", @nil cell)])
             <-> In k (columns asymmetries_demo) /\ k <> "Escenarios"
                 /\ k <> "Descripcion" /\ ~ In k slider_columns)
  /\ (forall k, In k (map fst [("% Hemisferio Correspondiente al ojo (Natural)", 50)])
                <-> In k (columns asymmetries_demo) /\ k <> "Escenarios"
                    /\ k <> "Descripcion" /\ In k slider_columns).
Proof.
  apply (create_sidebar_filters_keys untouched asymmetries_demo "Escenarios").
  reflexivity.
Defined.



(** X24.  A sidebar that the user has not touched gives only inert
    predicates: every selection is empty and every slider is at 50. *)
Theorem create_sidebar_filters_untouched (df : DataFrame) (escenarios_col : string)
    (filters : list (string * list cell)) (slider_filters : list (string * Z)) :
  create_sidebar_filters untouched df escenarios_col
  = Done (filters, slider_filters) ->
  all_inert filters slider_filters.
Proof.
  intros E. destruct (sidebar_built _ _ _ _ _ E) as (_ & _ & V1 & V2). split.
  - intros col vals H. destruct (V1 col vals H) as [[]|(series & options & _ & _ & ->)].
    reflexivity.
  - intros col q H. destruct (V2 col q H) as [[]| ->]. reflexivity.
Qed.

Lemma create_sidebar_filters_untouched_witness :
  all_inert [("Ojo Dominante", [])]
            [("% Hemisferio Correspondiente al ojo (Natural)", 50)].
Proof.
  apply (create_sidebar_filters_untouched asymmetries_demo "Escenarios").
  reflexivity.
Defined.

(** X25.  [create_sidebar_filters] fails exactly when a column that gets a
    multiselect holds a text beside a number, and the failure is then the
    [TypeError] of [sorted]. *)
Theorem create_sidebar_filters_type_error (ui : widgets) (df : DataFrame)
    (escenarios_col : string) :
  (forall e, create_sidebar_filters ui df escenarios_col = Failed e ->
             e = TypeError)
  /\ ((exists e, create_sidebar_filters ui df escenarios_col = Failed e)
      <-> exists c series,
            In c (columns df) /\ c <> escenarios_col /\ c <> "Descripcion"
            /\ ~ In c slider_columns
            /\ get_column df c = Ok series /\ mixed series).
Proof.
  assert (Hin : forall c,
             In c (filter (fun col => negb (String.eqb col escenarios_col)
                                      && negb (String.eqb col "Descripcion"))
                          (columns df)) -> In c (columns df)).
  { intros c Hc. now apply filter_cols_spec in Hc. }
  split.
  - intros e E. now destruct (sidebar_loop_failed ui df _ Hin _ _ _ E).
  - split.
    + intros [e E].
      destruct (sidebar_loop_failed ui df _ Hin _ _ _ E)
        as (_ & c & series & Hc & Hns & Es & Hm).
      apply filter_cols_spec in Hc as (Hc & H1 & H2).
      exists c, series. tauto.
    + intros (c & series & Hc & H1 & H2 & Hns & Es & Hm).
      apply (sidebar_loop_mixed ui df _ [] [] c series); auto.
      now apply filter_cols_spec.
Qed.

Lemma create_sidebar_filters_type_error_witness :
  exists c series,
    In c (columns {| columns := ["Nivel"; "Escenarios"];
                     rows := [[IntV 1; StrV "Lectura"];
                              [StrV "alto"; StrV "Calculo"]] |})
    /\ c <> "Escenarios" /\ c <> "Descripcion"
    /\ ~ In c slider_columns
    /\ get_column {| columns := ["Nivel"; "Escenarios"];
                     rows := [[IntV 1; StrV "Lectura"];
                              [StrV "alto"; StrV "Calculo"]] |} c = Ok series
    /\ mixed series.
Proof.
  apply (proj1 (proj2 (create_sidebar_filters_type_error untouched
                         {| columns := ["Nivel"; "Escenarios"];
                            rows := [[IntV 1; StrV "Lectura"];
                                     [StrV "alto"; StrV "Calculo"]] |}
                         "Escenarios"))).
  exists TypeError. reflexivity.
Defined.

(** X26.  Each selection of the categorical dict is the user's answer to
    a multiselect whose options are the values of the column that are
    not missing, each one once, in ascending order; each slider value is
    the answer to a slider from 0 to 100 drawn at 50. *)
Theorem create_sidebar_filters_options (ui : widgets) (df : DataFrame)
    (escenarios_col : string)
    (filters : list (string * list cell)) (slider_filters : list (string * Z)) :
  create_sidebar_filters ui df escenarios_col = Done (filters, slider_filters) ->
  (forall col vals, In (col, vals) filters ->
     exists series options,
       get_column df col = Ok series
       /\ vals = multiselect ui ("Filtrar por " ++ col)%string options []
       /\ Sorted cell_le options
       /\ NoDup options
       /\ forall c, In c options <-> In c series /\ c <> NaN)
  /\ (forall col q, In (col, q) slider_filters ->
        q = slider ui ("Filtrar por " ++ col)%string 0 100 50 1).
Proof.
  intros E. destruct (sidebar_built _ _ _ _ _ E) as (_ & _ & V1 & V2). split.
  - intros col vals H.
    destruct (V1 col vals H) as [[]|(series & options & Es & Eo & ->)].
    destruct (py_sorted_done _ _ (options_present series) Eo) as (_ & Hperm & Hsorted).
    exists series, options. split; [exact Es|]. split; [reflexivity|].
    split; [exact Hsorted|]. split.
    + apply (Permutation_NoDup Hperm). apply unique_spec.
    + intros c. rewrite <- isna_false, <- options_spec. split.
      * apply Permutation_in. now apply Permutation_sym.
      * now apply Permutation_in.
  - intros col q H. now destruct (V2 col q H) as [[]|].
Qed.

Lemma create_sidebar_filters_options_witness :
  (forall col vals, In (col, vals) [("Ojo Dominante", @nil cell)] ->
     exists series options,
       get_column asymmetries_demo col = Ok series
       /\ vals = multiselect untouched ("Filtrar por " ++ col)%string options []
       /\ Sorted cell_le options
       /\ NoDup options
       /\ forall c, In c options <-> In c series /\ c <> NaN)
  /\ (forall col q,
        In (col, q) [("% Hemisferio Correspondiente al ojo (Natural)", 50)] ->
        q = slider untouched ("Filtrar por " ++ col)%string 0 100 50 1).
Proof.
  apply (create_sidebar_filters_options untouched asymmetries_demo "Escenarios").
  reflexivity.
Defined.

(** ** [main], from the frame to the labels offered *)



